(** * download_site.py: the incremental fetch-and-classify engine

    A shallow embedding of [src/download_site.py] and the properties of
    its skip check, retry loop, artifact naming and bookkeeping.

    Python values are modelled as follows.
    - [str] is a list of Unicode code points ([pystr]), each a [Z];
    - [bytes] is a list of 8-bit values ([bytes]), each a [Z] in [0, 256);
    - a [dict] with [str] keys is a [gmap pystr _];
    - a Python [float] that holds a time stamp is a rational ([Q]);
    - [Optional[T]] is [option T], and a call that may raise returns an
      [option] (or a [bool]) with [None] (or [false]) for the exception.

    Everything outside the process (the network, the disk, the clock, the
    libraries that parse XML, time stamps and HTML, and the scheduling of
    the thread pool) is an environment [env] that answers each call from
    the history of calls so far; the history is kept as a trace of events. *)

From Stdlib Require Import ZArith QArith List Ascii String Lia Permutation.
From stdpp Require Import base option list gmap.
Import ListNotations.

Local Open Scope Z_scope.

(** ** Strings and bytes *)

Abbreviation pystr := (list Z) (only parsing).
Abbreviation bytes := (list Z) (only parsing).

(** A string literal of the source, as code points. *)
Definition lit (s : string) : pystr :=
  map (fun a => Z.of_nat (nat_of_ascii a)) (list_ascii_of_string s).

(** [str.encode('utf-8')] on one code point; [None] is
    [UnicodeEncodeError] (a surrogate) or a value that is no code point. *)
Definition utf8_encode_cp (c : Z) : option bytes :=
  if c <? 0 then None
  else if c <? 0x80 then Some [c]
  else if c <? 0x800 then Some [0xC0 + c / 64; 0x80 + c mod 64]
  else if (0xD800 <=? c) && (c <=? 0xDFFF) then None
  else if c <? 0x10000 then
    Some [0xE0 + c / 4096; 0x80 + (c / 64) mod 64; 0x80 + c mod 64]
  else if c <=? 0x10FFFF then
    Some [0xF0 + c / 262144; 0x80 + (c / 4096) mod 64;
          0x80 + (c / 64) mod 64; 0x80 + c mod 64]
  else None.

Fixpoint utf8_encode (s : pystr) : option bytes :=
  match s with
  | [] => Some []
  | c :: s' =>
      match utf8_encode_cp c, utf8_encode s' with
      | Some b, Some bs => Some (b ++ bs)
      | _, _ => None
      end
  end.

(** ** hashlib.md5 (RFC 1321) *)

Module MD5.

Definition w32 (x : Z) : Z := x mod 2 ^ 32.

Definition rotl32 (x c : Z) : Z :=
  w32 (Z.lor (Z.shiftl x c) (Z.shiftr x (32 - c))).

Definition not32 (x : Z) : Z := Z.lxor x 0xFFFFFFFF.

Definition K : list Z :=
  [ 0xd76aa478; 0xe8c7b756; 0x242070db; 0xc1bdceee;
    0xf57c0faf; 0x4787c62a; 0xa8304613; 0xfd469501;
    0x698098d8; 0x8b44f7af; 0xffff5bb1; 0x895cd7be;
    0x6b901122; 0xfd987193; 0xa679438e; 0x49b40821;
    0xf61e2562; 0xc040b340; 0x265e5a51; 0xe9b6c7aa;
    0xd62f105d; 0x02441453; 0xd8a1e681; 0xe7d3fbc8;
    0x21e1cde6; 0xc33707d6; 0xf4d50d87; 0x455a14ed;
    0xa9e3e905; 0xfcefa3f8; 0x676f02d9; 0x8d2a4c8a;
    0xfffa3942; 0x8771f681; 0x6d9d6122; 0xfde5380c;
    0xa4beea44; 0x4bdecfa9; 0xf6bb4b60; 0xbebfbc70;
    0x289b7ec6; 0xeaa127fa; 0xd4ef3085; 0x04881d05;
    0xd9d4d039; 0xe6db99e5; 0x1fa27cf8; 0xc4ac5665;
    0xf4292244; 0x432aff97; 0xab9423a7; 0xfc93a039;
    0x655b59c3; 0x8f0ccc92; 0xffeff47d; 0x85845dd1;
    0x6fa87e4f; 0xfe2ce6e0; 0xa3014314; 0x4e0811a1;
    0xf7537e82; 0xbd3af235; 0x2ad7d2bb; 0xeb86d391 ].

Definition S : list Z :=
  [ 7; 12; 17; 22; 7; 12; 17; 22; 7; 12; 17; 22; 7; 12; 17; 22;
    5; 9; 14; 20; 5; 9; 14; 20; 5; 9; 14; 20; 5; 9; 14; 20;
    4; 11; 16; 23; 4; 11; 16; 23; 4; 11; 16; 23; 4; 11; 16; 23;
    6; 10; 15; 21; 6; 10; 15; 21; 6; 10; 15; 21; 6; 10; 15; 21 ].

Record state := St { sA : Z; sB : Z; sC : Z; sD : Z }.

Definition init : state :=
  St 0x67452301 0xefcdab89 0x98badcfe 0x10325476.

(** Little-endian 32-bit words of a block and bytes of a word. *)
Fixpoint words (b : list Z) : list Z :=
  match b with
  | b0 :: b1 :: b2 :: b3 :: r =>
      (b0 + 2 ^ 8 * b1 + 2 ^ 16 * b2 + 2 ^ 24 * b3) :: words r
  | _ => []
  end.

Definition word_bytes (x : Z) : list Z :=
  [ x mod 256; (x / 2 ^ 8) mod 256; (x / 2 ^ 16) mod 256; (x / 2 ^ 24) mod 256 ].

Definition round (M : list Z) (s : state) (i : nat) : state :=
  let '(St a b c d) := s in
  let iz := Z.of_nat i in
  let '(f, g) :=
    if iz <? 16 then (Z.lor (Z.land b c) (Z.land (not32 b) d), iz)
    else if iz <? 32 then
      (Z.lor (Z.land d b) (Z.land (not32 d) c), (5 * iz + 1) mod 16)
    else if iz <? 48 then (Z.lxor b (Z.lxor c d), (3 * iz + 5) mod 16)
    else (Z.lxor c (Z.lor b (not32 d)), (7 * iz) mod 16) in
  let f' := w32 (f + a + nth i K 0 + nth (Z.to_nat g) M 0) in
  St d (w32 (b + rotl32 f' (nth i S 0))) b c.

Definition block (s : state) (blk : list Z) : state :=
  let s' := fold_left (round (words blk)) (seq 0 64) s in
  St (w32 (sA s + sA s')) (w32 (sB s + sB s'))
     (w32 (sC s + sC s')) (w32 (sD s + sD s')).

Definition pad (msg : list Z) : list Z :=
  let n := Z.of_nat (length msg) in
  let zeros := Z.to_nat ((55 - n) mod 64) in
  let bits := 8 * n in
  msg ++ [0x80] ++ repeat 0 zeros
      ++ word_bytes (bits mod 2 ^ 32) ++ word_bytes ((bits / 2 ^ 32) mod 2 ^ 32).

Fixpoint blocks (n : nat) (msg : list Z) (s : state) : state :=
  match n with
  | O => s
  | Datatypes.S n' => blocks n' (skipn 64 msg) (block s (firstn 64 msg))
  end.

(** [hashlib.md5(data).digest()]: 16 bytes. *)
Definition digest (data : bytes) : bytes :=
  let p := pad data in
  let s := blocks (length p / 64)%nat p init in
  word_bytes (sA s) ++ word_bytes (sB s) ++ word_bytes (sC s) ++ word_bytes (sD s).

End MD5.

(** [hexdigest]: two lower-case hexadecimal digits per byte. *)
Definition hex_digit (n : Z) : Z := if n <? 10 then 48 + n else 87 + n.

Definition hex_byte (b : Z) : pystr := [hex_digit (b / 16); hex_digit (b mod 16)].

Definition hexlify (bs : bytes) : pystr := flat_map hex_byte bs.

Definition md5_hexdigest (data : bytes) : pystr := hexlify (MD5.digest data).

(** ** url_to_filename *)

(** [hashlib.md5(url.encode('utf-8')).hexdigest() + '.html']; [None] when
    the encoding raises. *)
Definition url_to_filename (url : pystr) : option pystr :=
  match utf8_encode url with
  | Some data => Some (md5_hexdigest data ++ lit ".html")
  | None => None
  end.

(** ** Paths *)

(** [os.path.join(a, b)] of [posixpath], for two components. *)
Definition startswith_sep (b : pystr) : bool :=
  match b with
  | c :: _ => c =? 47
  | [] => false
  end.

Definition endswith_sep (a : pystr) : bool :=
  match last a with
  | Some c => c =? 47
  | None => false
  end.

Definition path_join (a b : pystr) : pystr :=
  if startswith_sep b then b
  else if bool_decide (a = []) || endswith_sep a then a ++ b
  else a ++ lit "/" ++ b.

Arguments path_join : simpl never.

Definition LAST_RUN_FILE : pystr := lit ".last_run.json".
Definition MAPPING_FILE : pystr := lit "url_mapping.csv".

(** ** The outside world *)

(** The three classifications [process_entry] returns
    (['skipped'], ['saved'], ['error']). *)
Inductive status := skipped | saved | error.

#[global] Instance status_eq_dec : EqDecision status.
Proof. solve_decision. Defined.

(** What a file holds: the bytes of an artifact, the JSON object of the
    run marker (its [last_run_time] key may be missing), or the rows of the
    URL mapping below the header row (the order of the rows is left out). *)
Inductive fdata :=
| FBytes (b : bytes)
| FJson (last_run_time : option Q)
| FCsv (rows : gmap pystr pystr).

(** How [open(path, 'w')] followed by a write ends: everything is written;
    [open] raises and the file is untouched; or the write raises after
    [open] has truncated the file, leaving [rest] behind. *)
Inductive write_result :=
| Written
| OpenFailed
| WriteFailed (rest : bytes).

Inductive log_record :=
| LogFetchError (url : pystr) (remaining : Z)
| LogNoReadability
| LogCleanFailed (url : pystr)
| LogStatus (s : status) (url : pystr).

(** The calls that reach outside the process, in the order they happen.
    [EvWrite] is an [open] and the write that follows it, for data that is
    there before the file is opened; [EvOpenFailed] is an [open] that
    raises before the data to write has been computed. *)
Inductive event :=
| EvGet (url : pystr) (response : option bytes)
| EvWrite (path : pystr) (data : fdata) (r : write_result)
| EvTime (t : Q)
| EvOpenFailed (path : pystr)
| EvLog (r : log_record).

Record world := World {
  trace : list event;
  files : gmap pystr fdata
}.

Definition emit (e : event) (w : world) : world :=
  World (trace w ++ [e]) (files w).

(** The environment answers each call from the history so far. *)
Record env := Env {
  (** [requests.get(url)] and [raise_for_status]; [None] when it raises *)
  http_get : list event -> pystr -> option bytes;
  (** how a write to a path ends *)
  disk_write : list event -> pystr -> write_result;
  (** [os.makedirs(dir, exist_ok=True)] succeeds *)
  makedirs_ok : pystr -> bool;
  (** [time.time()] *)
  time_time : list event -> Q;
  (** [time.mktime(time.strptime(s, '%Y-%m-%dT%H:%M:%S%z'))]; [None]
      when it raises *)
  mktime_strptime : pystr -> option Q;
  (** the module-level flag set by the import of [readability] *)
  HAVE_READABILITY : bool;
  (** decode, [Document(html).summary()], encode; [None] when it raises *)
  readability_summary : bytes -> option bytes;
  (** [ET.fromstring] and the walk over the [url] elements; [None] when
      the XML is malformed *)
  sitemap_entries : bytes -> option (list (pystr * option pystr));
  (** which of the pending pool tasks is the next to run *)
  next_task : list event -> nat
}.

Record args := Args {
  sitemap_url : pystr;
  output_dir : pystr;
  limit : option Z;
  force : bool;
  workers : Z;
  retries : Z;
  readability : bool;
  last_run_time : option Q
}.

(** [args.last_run_time = t] *)
Definition with_last_run (t : option Q) (a : args) : args :=
  Args (sitemap_url a) (output_dir a) (limit a) (force a) (workers a)
       (retries a) (readability a) t.

(** Truth value of an [Optional[float]] and of an [Optional[str]]. *)
Definition truthy_float (o : option Q) : bool :=
  match o with
  | Some t => negb (Qeq_bool t 0)
  | None => false
  end.

Definition truthy_str (o : option pystr) : bool :=
  match o with
  | Some (_ :: _) => true
  | _ => false
  end.

Section Engine.

Context (E : env).

(** [fetch_url] *)
Definition fetch_url (url : pystr) (w : world) : option bytes * world :=
  let r := http_get E (trace w) url in
  (r, emit (EvGet url r) w).

(** [with open(path, 'w') as f: f.write(data)]; [false] when it raises. *)
Definition write_file (path : pystr) (data : fdata) (w : world) : bool * world :=
  let r := disk_write E (trace w) path in
  let fs :=
    match r with
    | Written => <[path := data]> (files w)
    | OpenFailed => files w
    | WriteFailed rest => <[path := FBytes rest]> (files w)
    end in
  (match r with Written => true | _ => false end,
   World (trace w ++ [EvWrite path data r]) fs).

Definition logging (r : log_record) (w : world) : world := emit (EvLog r) w.

(** The skip check at the head of [process_entry]. *)
Definition skip_check (a : args) (lastmod : option pystr) : bool :=
  if negb (force a) && truthy_float (last_run_time a) && truthy_str lastmod then
    match lastmod, last_run_time a with
    | Some lm, Some lrt =>
        match mktime_strptime E lm with
        | Some ts => Qle_bool ts lrt
        | None => false
        end
    | _, _ => false
    end
  else false.

(** One pass through the body of the [while] loop: [Some s] when it
    returns [s], [None] when it raises into the [except] clause. *)
Definition attempt (url : pystr) (a : args) (url_map : gmap pystr pystr) (w : world)
  : option status * gmap pystr pystr * world :=
  match fetch_url url w with
  | (None, w1) => (None, url_map, w1)
  | (Some content, w1) =>
      let cleaned :=
        if readability a then
          if negb (HAVE_READABILITY E) then None
          else
            match readability_summary E content with
            | Some c => Some (c, w1)
            | None => Some (content, logging (LogCleanFailed url) w1)
            end
        else Some (content, w1) in
      match cleaned with
      | None => (Some error, url_map, logging LogNoReadability w1)
      | Some (content', w2) =>
          match url_to_filename url with
          | None => (None, url_map, w2)
          | Some fname =>
              let dest := path_join (output_dir a) fname in
              match write_file dest (FBytes content') w2 with
              | (true, w3) => (Some saved, <[url := fname]> url_map, w3)
              | (false, w3) => (None, url_map, w3)
              end
          end
      end
  end.

(** The [while attempts > 0] loop, by the number of attempts left. *)
Fixpoint retry_loop (attempts : nat) (url : pystr) (a : args)
    (url_map : gmap pystr pystr) (w : world)
  : status * gmap pystr pystr * world :=
  match attempts with
  | O => (error, url_map, w)
  | Datatypes.S attempts' =>
      match attempt url a url_map w with
      | (Some s, m, w') => (s, m, w')
      | (None, m, w') =>
          retry_loop attempts' url a m
            (logging (LogFetchError url (Z.of_nat attempts')) w')
      end
  end.

Definition process_entry (url : pystr) (lastmod : option pystr) (a : args)
    (url_map : gmap pystr pystr) (w : world)
  : (pystr * status) * gmap pystr pystr * world :=
  if skip_check a lastmod then ((url, skipped), url_map, w)
  else
    let '(s, m, w') := retry_loop (Z.to_nat (retries a)) url a url_map w in
    ((url, s), m, w').

(** [load_last_run]: [None] when [json.load] raises. *)
Definition load_last_run (dir : pystr) (w : world) : option (option Q) :=
  match files w !! path_join dir LAST_RUN_FILE with
  | None => Some None
  | Some (FJson t) => Some t
  | Some _ => None
  end.

(** [save_last_run]: the marker is opened first, and the clock is read
    inside the [with] block, only when the [open] went through. *)
Definition save_last_run (dir : pystr) (w : world) : bool * world :=
  let path := path_join dir LAST_RUN_FILE in
  match disk_write E (trace w) path with
  | OpenFailed => (false, emit (EvOpenFailed path) w)
  | Written =>
      let t := time_time E (trace w) in
      (true, World (trace w ++ [EvTime t; EvWrite path (FJson (Some t)) Written])
                   (<[path := FJson (Some t)]> (files w)))
  | WriteFailed rest =>
      let t := time_time E (trace w) in
      (false, World (trace w ++ [EvTime t; EvWrite path (FJson (Some t)) (WriteFailed rest)])
                    (<[path := FBytes rest]> (files w)))
  end.

(** [write_mapping] *)
Definition write_mapping (dir : pystr) (url_map : gmap pystr pystr) (w : world)
  : bool * world :=
  write_file (path_join dir MAPPING_FILE) (FCsv url_map) w.

(** [entries[:k]] *)
Definition slice_to {A} (l : list A) (k : Z) : list A :=
  if k <? 0 then firstn (Z.to_nat (Z.of_nat (length l) + k)) l
  else firstn (Z.to_nat k) l.

(** [if args.limit: entries = entries[:args.limit]] *)
Definition apply_limit {A} (lim : option Z) (entries : list A) : list A :=
  match lim with
  | Some k => if k =? 0 then entries else slice_to entries k
  | None => entries
  end.

(** The thread pool and the [as_completed] loop.  Every submitted task is
    run once; [next_task] picks which of the pending ones runs next, so
    the tasks finish in any order.  A task is run to its end before the
    next one starts: the calls of two tasks are not interleaved, but the
    environment answers each call from the whole history, and the only
    state the tasks share are the mapping, where each task sets its own
    key, and the files.  Each result is logged as it arrives.  The result
    is the outcomes in the order they were collected, the mapping and the
    world. *)
Fixpoint run_pool (n : nat) (pending : list (pystr * option pystr)) (a : args)
    (url_map : gmap pystr pystr) (w : world)
  : list (pystr * status) * gmap pystr pystr * world :=
  match n with
  | O => ([], url_map, w)
  | Datatypes.S n' =>
      let i := (next_task E (trace w) mod length pending)%nat in
      match pending !! i with
      | None => ([], url_map, w)
      | Some (url, lm) =>
          let '(r, m1, w1) := process_entry url lm a url_map w in
          let w2 := logging (LogStatus (snd r) (fst r)) w1 in
          let '(rs, m2, w3) := run_pool n' (delete i pending) a m1 w2 in
          (r :: rs, m2, w3)
      end
  end.

(** How a run ends: a start-up failure before anything is scheduled (the
    directory, the run marker, the sitemap, or a pool that cannot be
    created), a failure of one of the two final writes, or completion. *)
Inductive run_end :=
| StartupFailed
| PersistFailed
| Completed.

Record run := Run {
  run_end_of : run_end;
  scheduled : list (pystr * option pystr);
  outcomes : list (pystr * status);
  final_map : gmap pystr pystr;
  final_world : world
}.

(** [main], after [parse_args] has produced [a].
    [ThreadPoolExecutor(max_workers=args.workers)] raises [ValueError] when
    the number of workers is not positive, before anything is submitted. *)
Definition main (a : args) (w : world) : run :=
  let dir := output_dir a in
  if negb (makedirs_ok E dir) then Run StartupFailed [] [] ∅ w
  else
    match load_last_run dir w with
    | None => Run StartupFailed [] [] ∅ w
    | Some lrt =>
        let a := with_last_run lrt a in
        match fetch_url (sitemap_url a) w with
        | (None, w1) => Run StartupFailed [] [] ∅ w1
        | (Some xml_data, w1) =>
            match sitemap_entries E xml_data with
            | None => Run StartupFailed [] [] ∅ w1
            | Some entries =>
                let entries := apply_limit (limit a) entries in
                if workers a <=? 0 then Run StartupFailed [] [] ∅ w1
                else
                let '(rs, url_map, w2) := run_pool (length entries) entries a ∅ w1 in
                match save_last_run dir w2 with
                | (false, w3) => Run PersistFailed entries rs url_map w3
                | (true, w3) =>
                    match write_mapping dir url_map w3 with
                    | (false, w4) => Run PersistFailed entries rs url_map w4
                    | (true, w4) => Run Completed entries rs url_map w4
                    end
                end
            end
        end
    end.

End Engine.

(** ** Observations *)

(** The three parts of what [process_entry] (and the pool) leaves behind. *)
Definition result_of {R} (r : R * gmap pystr pystr * world) : R := r.1.1.
Definition map_of {R} (r : R * gmap pystr pystr * world) : gmap pystr pystr := r.1.2.
Definition world_of {R} (r : R * gmap pystr pystr * world) : world := r.2.
Definition status_of (r : (pystr * status) * gmap pystr pystr * world) : status :=
  (result_of r).2.

Definition is_get (e : event) : bool :=
  match e with EvGet _ _ => true | _ => false end.
Definition is_get_ok (e : event) : bool :=
  match e with EvGet _ (Some _) => true | _ => false end.
Definition is_write (e : event) : bool :=
  match e with EvWrite _ _ _ => true | _ => false end.
Definition is_time (e : event) : bool :=
  match e with EvTime _ => true | _ => false end.
Definition is_retry_log (e : event) : bool :=
  match e with EvLog (LogFetchError _ _) => true | _ => false end.

(** How many events of a kind a trace holds. *)
Definition count (p : event -> bool) (t : list event) : nat :=
  length (List.filter p t).

(** No event of the list is a reading of the clock. *)
Definition quiet (evs : list event) : Prop := Forall (fun e => is_time e = false) evs.

(** What [n] attempts that all fail at the request leave in the trace:
    each request and the warning that follows it, with the attempts left. *)
Fixpoint failed_tries (url : pystr) (n : nat) : list event :=
  match n with
  | O => []
  | Datatypes.S n' =>
      EvGet url None :: EvLog (LogFetchError url (Z.of_nat n')) :: failed_tries url n'
  end.

(** ** Concrete environments *)

(** An environment whose answers do not depend on the history; its clock
    shows the number of events so far. *)
Definition fixed_env (get : pystr -> option bytes) (wr : pystr -> write_result)
    (parse : pystr -> option Q) (have : bool) (summary : bytes -> option bytes)
    (xml : bytes -> option (list (pystr * option pystr))) : env :=
  Env (fun _ => get) (fun _ => wr) (fun _ => true)
      (fun h => inject_Z (Z.of_nat (length h))) parse have summary xml
      (fun _ => 0%nat).

Definition w0 : world := World [] ∅.

Definition base_args : args :=
  Args (lit "http://a/sitemap.xml") (lit "tmp") None false 5 3 false None.

Definition with_readability (a : args) : args :=
  Args (sitemap_url a) (output_dir a) (limit a) (force a) (workers a)
       (retries a) true (last_run_time a).

Definition with_limit (k : option Z) (a : args) : args :=
  Args (sitemap_url a) (output_dir a) k (force a) (workers a)
       (retries a) (readability a) (last_run_time a).

(** A time-stamp parser that knows two dates, in UTC. *)
Definition parse_two (s : pystr) : option Q :=
  if bool_decide (s = lit "1969-12-31T00:00:00+0000") then Some (inject_Z (-86400))
  else if bool_decide (s = lit "2020-01-01T00:00:00+0000") then Some (inject_Z 1577836800)
  else None.

Definition page : bytes := [60; 112; 62; 104; 105; 60; 47; 112; 62].

(** Every request is answered with [page], every write succeeds. *)
Definition env_up (have : bool) (summary : bytes -> option bytes) : env :=
  fixed_env (fun _ => Some page) (fun _ => Written) parse_two have summary
    (fun _ => Some []).

(** Every request fails. *)
Definition env_down : env :=
  fixed_env (fun _ => None) (fun _ => Written) parse_two true Some (fun _ => Some []).

(** Every request is answered, every write fails at [open]. *)
Definition env_readonly : env :=
  fixed_env (fun _ => Some page) (fun _ => OpenFailed) parse_two true Some
    (fun _ => Some []).

Definition catalog5 : list (pystr * option pystr) :=
  [ (lit "http://a/1", None); (lit "http://a/2", Some (lit "2020-01-01T00:00:00+0000"));
    (lit "http://a/3", None); (lit "http://a/4", None); (lit "http://a/5", None) ].

(** The sitemap lists [catalog5]; the pages [http://a/3] and [http://a/4]
    cannot be fetched; which task the pool runs next depends on the length of
    the history. *)
Definition env_site : env :=
  Env (fun _ u =>
         if bool_decide (u = lit "http://a/3") || bool_decide (u = lit "http://a/4")
         then None else Some page)
      (fun _ _ => Written) (fun _ => true)
      (fun h => inject_Z (Z.of_nat (length h))) parse_two true Some
      (fun _ => Some catalog5) (fun h => length h).

Definition catalog2 : list (pystr * option pystr) :=
  [ (lit "http://a/1", None); (lit "http://a/2", Some (lit "2020-01-01T00:00:00+0000")) ].

(** The sitemap lists [catalog2] and everything works. *)
Definition env_two : env :=
  fixed_env (fun _ => Some page) (fun _ => Written) parse_two true Some
    (fun _ => Some catalog2).

(** As [env_two], but the run marker cannot be opened for writing. *)
Definition env_marker_locked : env :=
  fixed_env (fun _ => Some page)
    (fun p => if bool_decide (p = path_join (lit "tmp") LAST_RUN_FILE)
              then OpenFailed else Written)
    parse_two true Some (fun _ => Some catalog2).

(** The output directory after a run that ended on 2021-01-01 (UTC). *)
Definition w_2021 : world :=
  World [] {[ path_join (lit "tmp") LAST_RUN_FILE := FJson (Some (inject_Z 1609459200)) ]}.

(** ** Further observations *)

(** A code point that UTF-8 can encode: in range and no surrogate. *)
Definition is_scalar_value (c : Z) : bool :=
  (0 <=? c) && (c <=? 0x10FFFF) && negb ((0xD800 <=? c) && (c <=? 0xDFFF)).

(** One of [0-9a-f]. *)
Definition is_lower_hex (c : Z) : bool :=
  ((48 <=? c) && (c <=? 57)) || ((97 <=? c) && (c <=? 102)).

(** The value of a digit from [0-9a-f]. *)
Definition hex_value (c : Z) : option Z :=
  if (48 <=? c) && (c <=? 57) then Some (c - 48)
  else if (97 <=? c) && (c <=? 102) then Some (c - 87)
  else None.

(** The bytes that a string of hexadecimal digits stands for. *)
Fixpoint unhexlify (s : pystr) : option bytes :=
  match s with
  | [] => Some []
  | hi :: lo :: r =>
      match hex_value hi, hex_value lo, unhexlify r with
      | Some h, Some l, Some bs => Some (16 * h + l :: bs)
      | _, _, _ => None
      end
  | _ => None
  end.

(** A status line of the loop that collects the results. *)
Definition is_status_log (e : event) : bool :=
  match e with EvLog (LogStatus _ _) => true | _ => false end.

(** A write that went through. *)
Definition is_write_ok (e : event) : bool :=
  match e with EvWrite _ _ Written => true | _ => false end.

(** The environment with another Readability: whether the import
    succeeded, and what the transformer answers. *)
Definition with_transformer (have : bool) (summary : bytes -> option bytes)
    (E : env) : env :=
  Env (http_get E) (disk_write E) (makedirs_ok E) (time_time E)
      (mktime_strptime E) have summary (sitemap_entries E) (next_task E).

(** What the first [k] of [n] attempts leave in the trace when they fail at
    the request. *)
Fixpoint failed_first (url : pystr) (n k : nat) : list event :=
  match k, n with
  | Datatypes.S k', Datatypes.S n' =>
      EvGet url None :: EvLog (LogFetchError url (Z.of_nat n')) :: failed_first url n' k'
  | _, _ => []
  end.

(** ** parse_sitemap *)

(** An element as [xml.etree.ElementTree] hands it out: its tag with the
    namespace in braces, the text before its first child ([None] when
    there is none), and its children in document order. *)
#[warnings="-register-all"]
Inductive element := Element (tag : pystr) (text : option pystr) (children : list element).

Definition tag_of (e : element) : pystr := let '(Element t _ _) := e in t.
Definition text_of (e : element) : option pystr := let '(Element _ x _) := e in x.
Definition children_of (e : element) : list element := let '(Element _ _ cs) := e in cs.

Definition SITEMAP_NS : pystr := lit "http://www.sitemaps.org/schemas/sitemap/0.9".

(** The tag that [ns:name] stands for. *)
Definition ns_tag (name : string) : pystr := lit "{" ++ SITEMAP_NS ++ lit "}" ++ lit name.

(** All elements below [e], in document order. *)
Fixpoint descendants (e : element) : list element :=
  match e with
  | Element _ _ cs => flat_map (fun c => c :: descendants c) cs
  end.

(** [root.findall('.//ns:url', namespaces=ns)] *)
Definition findall_url (root : element) : list element :=
  List.filter (fun e => bool_decide (tag_of e = ns_tag "url")) (descendants root).

(** [elem.find('ns:name', namespaces=ns)]: the first child with the tag. *)
Definition find_child (elem : element) (name : string) : option element :=
  List.find (fun c => bool_decide (tag_of c = ns_tag name)) (children_of elem).

(** [str.isspace] on one character. *)
Definition isspace (c : Z) : bool :=
  ((0x09 <=? c) && (c <=? 0x0D)) || ((0x1C <=? c) && (c <=? 0x20))
  || (c =? 0x85) || (c =? 0xA0) || (c =? 0x1680)
  || ((0x2000 <=? c) && (c <=? 0x200A))
  || (c =? 0x2028) || (c =? 0x2029) || (c =? 0x202F) || (c =? 0x205F) || (c =? 0x3000).

Fixpoint lstrip (s : pystr) : pystr :=
  match s with
  | c :: t => if isspace c then lstrip t else s
  | [] => []
  end.

Definition rstrip (s : pystr) : pystr := rev (lstrip (rev s)).

(** [s.strip()] *)
Definition strip (s : pystr) : pystr := rstrip (lstrip s).

(** [loc is not None and loc.text] *)
Definition has_loc_text (elem : element) : bool :=
  match find_child elem "loc" with
  | Some loc => truthy_str (text_of loc)
  | None => false
  end.

(** The body of the loop over the [url] elements: [None] when it raises
    (a [lastmod] element without text has no [strip]), [Some None] when
    the element is passed over, [Some (Some entry)] when an entry is
    appended. *)
Definition entry_of (elem : element) : option (option (pystr * option pystr)) :=
  let loc := find_child elem "loc" in
  let lastmod := find_child elem "lastmod" in
  match loc with
  | Some (Element _ (Some (c :: t)) _) =>
      match lastmod with
      | Some lm =>
          match text_of lm with
          | Some x => Some (Some (strip (c :: t), Some (strip x)))
          | None => None
          end
      | None => Some (Some (strip (c :: t), None))
      end
  | _ => Some None
  end.

Fixpoint collect_entries (elems : list element) : option (list (pystr * option pystr)) :=
  match elems with
  | [] => Some []
  | e :: rest =>
      match entry_of e with
      | None => None
      | Some o =>
          match collect_entries rest with
          | None => None
          | Some l => Some (match o with Some x => x :: l | None => l end)
          end
      end
  end.

(** [parse_sitemap]; [fromstring] is [ET.fromstring], [None] when the
    XML is malformed. *)
Definition parse_sitemap (fromstring : bytes -> option element) (xml_data : bytes)
  : option (list (pystr * option pystr)) :=
  match fromstring xml_data with
  | Some root => collect_entries (findall_url root)
  | None => None
  end.

(** No white space at either end. *)
Definition trimmed (s : pystr) : Prop :=
  (forall c t, s = c :: t -> isspace c = false) /\
  (forall c, last s = Some c -> isspace c = false).

(** ** More concrete environments *)

Definition with_workers (n : Z) (a : args) : args :=
  Args (sitemap_url a) (output_dir a) (limit a) (force a) n
       (retries a) (readability a) (last_run_time a).

Definition with_retries (n : Z) (a : args) : args :=
  Args (sitemap_url a) (output_dir a) (limit a) (force a) (workers a)
       n (readability a) (last_run_time a).

(** The first two requests fail, the later ones are answered. *)
Definition env_flaky : env :=
  Env (fun h _ => if (count is_get h <? 2)%nat then None else Some page)
      (fun _ _ => Written) (fun _ => true)
      (fun h => inject_Z (Z.of_nat (length h))) parse_two true Some
      (fun _ => Some []) (fun _ => 0%nat).

Definition cleaned_page : bytes := [104; 105].

(** The output directory with a run marker that is no JSON. *)
Definition w_damaged : world :=
  World [] {[ path_join (lit "tmp") LAST_RUN_FILE := FBytes [123] ]}.

Definition catalog_old : list (pystr * option pystr) :=
  [ (lit "http://a/1", Some (lit "2020-01-01T00:00:00+0000"));
    (lit "http://a/2", Some (lit "2020-01-01T00:00:00+0000")) ].

(** The sitemap lists [catalog_old] and everything works; the clock
    starts on 2021-01-01 (UTC) and advances with every event. *)
Definition env_old : env :=
  Env (fun _ _ => Some page) (fun _ _ => Written) (fun _ => true)
      (fun h => inject_Z (1609459200 + Z.of_nat (length h))) parse_two true Some
      (fun _ => Some catalog_old) (fun _ => 0%nat).

(** A sitemap of three [url] elements: one complete, one without a [loc],
    one with white space around its [loc] and no [lastmod]. *)
Definition sitemap_tree : element :=
  Element (ns_tag "urlset") None
    [ Element (ns_tag "url") None
        [ Element (ns_tag "loc") (Some (lit "http://a/1")) [];
          Element (ns_tag "lastmod") (Some (lit "2020-01-01T00:00:00+0000")) [] ];
      Element (ns_tag "url") None [];
      Element (ns_tag "url") None
        [ Element (ns_tag "loc") (Some (lit " http://a/2 ")) [] ] ].

(** A sitemap whose one [url] element has an empty [lastmod] element. *)
Definition sitemap_tree_empty_lastmod : element :=
  Element (ns_tag "urlset") None
    [ Element (ns_tag "url") None
        [ Element (ns_tag "loc") (Some (lit "http://a/1")) [];
          Element (ns_tag "lastmod") None [] ] ].

(** Everything works and the sitemap is parsed by [parse_sitemap]. *)
Definition env_parsed (tree : element) : env :=
  fixed_env (fun _ => Some page) (fun _ => Written) parse_two true Some
    (parse_sitemap (fun _ => Some tree)).

(** * Properties *)

(** Filenames of three URLs, as [md5sum] prints them. *)
Example url_to_filename_empty :
  url_to_filename (lit "") = Some (lit "d41d8cd98f00b204e9800998ecf8427e.html").
Proof. vm_compute. reflexivity. Qed.

Example url_to_filename_a1 :
  url_to_filename (lit "http://a/1") = Some (lit "f9b968e7dbf1f88ba0cf909900bebfd6.html").
Proof. vm_compute. reflexivity. Qed.

(** A lone surrogate cannot be encoded. *)
Example url_to_filename_surrogate : url_to_filename [0xD800] = None.
Proof. reflexivity. Qed.

(** ** The artifact namer *)

Section Namer.

Lemma utf8_encode_cp_inj c1 c2 b1 b2 r1 r2 :
  utf8_encode_cp c1 = Some b1 -> utf8_encode_cp c2 = Some b2 ->
  b1 ++ r1 = b2 ++ r2 -> c1 = c2 /\ r1 = r2.
Proof.
  unfold utf8_encode_cp.
  repeat match goal with
         | |- context [?x <? ?y] => destruct (Z.ltb_spec x y)
         | |- context [?x <=? ?y] => destruct (Z.leb_spec x y)
         end; simpl; intros Hb1 Hb2 Happ; try discriminate;
    injection Hb1 as <-; injection Hb2 as <-; simpl in Happ;
    injection Happ; intros; subst; split; try reflexivity;
    Z.div_mod_to_equations; lia.
Qed.

Lemma utf8_encode_cp_nonempty c b : utf8_encode_cp c = Some b -> b <> [].
Proof.
  unfold utf8_encode_cp.
  repeat match goal with
         | |- context [if ?x then _ else _] => destruct x
         end; intros Hb; try discriminate; injection Hb as <-; discriminate.
Qed.

Lemma utf8_encode_inj s1 : forall s2 d,
  utf8_encode s1 = Some d -> utf8_encode s2 = Some d -> s1 = s2.
Proof.
  induction s1 as [|c1 s1 IH]; intros [|c2 s2] d; simpl; try reflexivity.
  - intros [= <-].
    destruct (utf8_encode_cp c2) as [b|] eqn:Hc; [|discriminate].
    destruct (utf8_encode s2); [|discriminate].
    intros Hnil. destruct b; [now apply utf8_encode_cp_nonempty in Hc | discriminate].
  - destruct (utf8_encode_cp c1) as [b|] eqn:Hc; [|discriminate].
    destruct (utf8_encode s1); [|discriminate].
    intros [= <-] Hnil. destruct b; [now apply utf8_encode_cp_nonempty in Hc | discriminate].
  - destruct (utf8_encode_cp c1) as [b1|] eqn:Hc1; [|discriminate].
    destruct (utf8_encode s1) as [d1|] eqn:Hs1; [|discriminate].
    destruct (utf8_encode_cp c2) as [b2|] eqn:Hc2; [|discriminate].
    destruct (utf8_encode s2) as [d2|] eqn:Hs2; [|discriminate].
    intros [= <-] [= Happ].
    destruct (utf8_encode_cp_inj _ _ _ _ _ _ Hc2 Hc1 Happ) as [-> ->].
    f_equal. now apply (IH s2 d1).
Qed.

Lemma hex_digit_inj a b : hex_digit a = hex_digit b -> a = b.
Proof.
  unfold hex_digit.
  destruct (Z.ltb_spec a 10), (Z.ltb_spec b 10); lia.
Qed.

Lemma hexlify_inj b1 : forall b2, hexlify b1 = hexlify b2 -> b1 = b2.
Proof.
  induction b1 as [|x b1 IH]; intros [|y b2]; simpl; try discriminate; try reflexivity.
  intros [= Hhi Hlo Hrest].
  apply hex_digit_inj in Hhi. apply hex_digit_inj in Hlo.
  f_equal; [|now apply IH].
  Z.div_mod_to_equations; lia.
Qed.

End Namer.

(** ** The skip check *)

Section SkipCheck.

Context (E : env).

Lemma truthy_float_iff o :
  truthy_float o = true <-> exists t, o = Some t /\ ~ (t == 0)%Q.
Proof.
  destruct o as [t|]; simpl.
  - rewrite negb_true_iff. split.
    + intros Hf. exists t. split; [reflexivity|].
      intros Heq. apply Qeq_bool_iff in Heq. congruence.
    + intros (t' & [= <-] & Hne).
      destruct (Qeq_bool t 0) eqn:Hq; [|reflexivity].
      apply Qeq_bool_iff in Hq. contradiction.
  - split; [discriminate|]. intros (t & Hsome & _). discriminate.
Qed.

Lemma skip_check_iff a lm :
  mktime_strptime E [] = None ->
  skip_check E a lm = true <->
  force a = false /\
  exists lrt s ts,
    last_run_time a = Some lrt /\ ~ (lrt == 0)%Q /\
    lm = Some s /\ mktime_strptime E s = Some ts /\ (ts <= lrt)%Q.
Proof.
  intros Hempty. unfold skip_check. split.
  - destruct (force a); simpl; [discriminate|].
    destruct (truthy_float (last_run_time a)) eqn:Ht; simpl; [|discriminate].
    apply truthy_float_iff in Ht as (lrt & Hl & Hnz). rewrite Hl.
    destruct lm as [[|c s]|]; simpl; try discriminate.
    destruct (mktime_strptime E (c :: s)) as [ts|] eqn:Hp; [|discriminate].
    intros Hle. apply Qle_bool_iff in Hle.
    split; [reflexivity|]. now exists lrt, (c :: s), ts.
  - intros (-> & lrt & s & ts & Hl & Hnz & -> & Hp & Hle). simpl.
    assert (Ht : truthy_float (last_run_time a) = true)
      by (apply truthy_float_iff; eauto).
    rewrite Ht, Hl. simpl.
    destruct s as [|c s]; [congruence|]. simpl. rewrite Hp.
    now apply Qle_bool_iff.
Qed.

End SkipCheck.

(** ** One attempt and the retry loop *)

(** Case analysis on one pass through the loop body. *)
Ltac attempt_cases :=
  unfold attempt, fetch_url, write_file, logging, emit,
    result_of, map_of, world_of; simpl;
  repeat match goal with
         | |- context [match ?x with _ => _ end] =>
             lazymatch x with
             | context [match _ with _ => _ end] => fail
             | _ => destruct x eqn:?; simpl
             end
         end.

Section RetryLoop.

Context (E : env).

Lemma count_app p t1 t2 : count p (t1 ++ t2) = (count p t1 + count p t2)%nat.
Proof. unfold count. now rewrite List.filter_app, length_app. Qed.

Lemma count_logging p r w :
  count p (trace (logging r w)) = (count p (trace w) + if p (EvLog r) then 1 else 0)%nat.
Proof.
  unfold logging, emit. simpl. rewrite count_app. unfold count. simpl.
  now destruct (p (EvLog r)).
Qed.

Lemma attempt_gets url a m w :
  count is_get (trace (world_of (attempt E url a m w))) = S (count is_get (trace w)).
Proof.
  attempt_cases; rewrite ?count_app; unfold count; simpl; lia.
Qed.

Lemma attempt_not_skipped url a m w :
  result_of (attempt E url a m w) <> Some skipped.
Proof. attempt_cases; discriminate. Qed.

Lemma attempt_map url a m w :
  (result_of (attempt E url a m w) = Some saved ->
   exists fname, url_to_filename url = Some fname /\
                 map_of (attempt E url a m w) = <[url := fname]> m) /\
  (result_of (attempt E url a m w) <> Some saved ->
   map_of (attempt E url a m w) = m).
Proof.
  attempt_cases; split; intros Hs; try discriminate; try reflexivity;
    try (exfalso; now apply Hs); eauto.
Qed.

Lemma retry_loop_not_skipped n url a : forall m w,
  result_of (retry_loop E n url a m w) <> skipped.
Proof.
  induction n as [|n IH]; intros m w; simpl; [discriminate|].
  pose proof (attempt_not_skipped url a m w) as Hns.
  destruct (attempt E url a m w) as [[[s|] m1] w1]; unfold result_of in *; simpl in *.
  - congruence.
  - apply IH.
Qed.

Lemma retry_loop_map n url a : forall m w,
  (result_of (retry_loop E n url a m w) = saved ->
   exists fname, url_to_filename url = Some fname /\
                 map_of (retry_loop E n url a m w) = <[url := fname]> m) /\
  (result_of (retry_loop E n url a m w) <> saved ->
   map_of (retry_loop E n url a m w) = m).
Proof.
  induction n as [|n IH]; intros m w; simpl.
  - split; [discriminate|reflexivity].
  - pose proof (attempt_map url a m w) as [Hsv Hns].
    destruct (attempt E url a m w) as [[[s|] m1] w1]; unfold result_of, map_of in *;
      simpl in *.
    + split; intros Hs.
      * apply Hsv. now rewrite Hs.
      * apply Hns. congruence.
    + rewrite (Hns ltac:(discriminate)). apply IH.
Qed.

Lemma retry_loop_gets n url a : forall m w,
  (count is_get (trace w) + (if n is O then 0 else 1)
   <= count is_get (trace (world_of (retry_loop E n url a m w)))
   <= count is_get (trace w) + n)%nat.
Proof.
  induction n as [|n IH]; intros m w; simpl; [unfold world_of; simpl; lia|].
  pose proof (attempt_gets url a m w) as Hg.
  destruct (attempt E url a m w) as [[[s|] m1] w1]; unfold world_of in *; simpl in *.
  - lia.
  - specialize (IH m1 (logging (LogFetchError url (Z.of_nat n)) w1)).
    rewrite count_logging in IH. simpl in IH. destruct n; lia.
Qed.

Lemma process_entry_fetching url lm a m w :
  skip_check E a lm = false ->
  process_entry E url lm a m w =
    let rl := retry_loop E (Z.to_nat (retries a)) url a m w in
    ((url, result_of rl), map_of rl, world_of rl).
Proof.
  intros Hs. unfold process_entry. rewrite Hs.
  now destruct (retry_loop E (Z.to_nat (retries a)) url a m w) as [[s m'] w'].
Qed.

Lemma count_failed_tries url n :
  count is_get (failed_tries url n) = n /\
  count is_get_ok (failed_tries url n) = 0%nat /\
  count is_write (failed_tries url n) = 0%nat /\
  count is_retry_log (failed_tries url n) = n.
Proof.
  unfold count. induction n as [|n (IH1 & IH2 & IH3 & IH4)]; simpl; [easy|].
  rewrite IH1, IH2, IH3, IH4. easy.
Qed.

Lemma retry_loop_unreachable url a n : forall m w,
  (forall h, http_get E h url = None) ->
  retry_loop E n url a m w = (error, m, World (trace w ++ failed_tries url n) (files w)).
Proof.
  induction n as [|n IH]; intros m w Hdown; simpl.
  - rewrite app_nil_r. now destruct w.
  - unfold attempt, fetch_url. rewrite Hdown. rewrite IH by assumption.
    unfold logging, emit. simpl. now rewrite <- !app_assoc.
Qed.

(** When every pass through the loop body raises, the loop runs the budget
    down and the entry ends in [error]; [k] is what one pass and its warning
    add to the events counted by [p]. *)
Lemma retry_loop_all_raise url a p k n :
  (forall m w j,
     result_of (attempt E url a m w) = None /\
     count p (trace (logging (LogFetchError url j) (world_of (attempt E url a m w))))
     = (count p (trace w) + k)%nat) ->
  forall m w,
    result_of (retry_loop E n url a m w) = error /\
    map_of (retry_loop E n url a m w) = m /\
    count p (trace (world_of (retry_loop E n url a m w)))
    = (count p (trace w) + n * k)%nat.
Proof.
  intros Hraise. induction n as [|n IH]; intros m w; simpl.
  - unfold result_of, map_of, world_of. simpl. repeat split. lia.
  - destruct (Hraise m w (Z.of_nat n)) as [Hnone Hcount].
    pose proof (attempt_map url a m w) as [_ Hm].
    destruct (attempt E url a m w) as [[o m1] w1];
      unfold result_of, map_of, world_of in *; simpl in *.
    subst o. rewrite (Hm ltac:(discriminate)).
    destruct (IH m (logging (LogFetchError url (Z.of_nat n)) w1)) as (Hs & Hmap & Hc).
    repeat split; [exact Hs | exact Hmap |].
    rewrite Hc. unfold logging, emit. simpl. rewrite Hcount. lia.
Qed.

End RetryLoop.

(** ** process_entry *)

Section ProcessEntry.

Context (E : env).

(** C1 (amended): [process_entry] answers [skipped], without a request and
    without touching the mapping, exactly when the run is not forced, the
    previous run left a time that is not zero, and the entry's
    [lastmod] parses to a time that is at most that one.  In every other
    case, an unparsable [lastmod] and a missing previous run among them,
    the entry goes on to the request. *)
Theorem skipped_iff_unforced_and_not_newer url lm a m w :
  mktime_strptime E [] = None ->
  let r := process_entry E url lm a m w in
  (status_of r = skipped <->
     force a = false /\
     exists lrt s ts,
       last_run_time a = Some lrt /\ ~ (lrt == 0)%Q /\
       lm = Some s /\ mktime_strptime E s = Some ts /\ (ts <= lrt)%Q) /\
  (status_of r = skipped -> world_of r = w /\ map_of r = m) /\
  (status_of r <> skipped -> 1 <= retries a ->
     (count is_get (trace w) < count is_get (trace (world_of r)))%nat).
Proof.
  intros Hempty r. subst r.
  pose proof (skip_check_iff E a lm Hempty) as Hiff.
  destruct (skip_check E a lm) eqn:Hs.
  - unfold process_entry. rewrite Hs. unfold status_of, result_of, world_of, map_of.
    simpl. split; [|split].
    + split; [intros _; now apply Hiff | reflexivity].
    + now intros _.
    + intros Hne. now contradiction Hne.
  - rewrite process_entry_fetching by assumption.
    unfold status_of, result_of, world_of, map_of. simpl.
    pose proof (retry_loop_not_skipped E (Z.to_nat (retries a)) url a m w) as Hns.
    unfold result_of in Hns. split; [|split].
    + split; [intros Hsk; now contradiction Hns|].
      intros Hcond. apply Hiff in Hcond. discriminate.
    + intros Hsk. now contradiction Hns.
    + intros _ Hpos.
      pose proof (retry_loop_gets E (Z.to_nat (retries a)) url a m w) as [Hlo _].
      unfold world_of in Hlo.
      destruct (Z.to_nat (retries a)) eqn:Hn; [lia|]. lia.
Qed.

(** C2: when the entry is not skipped and every request for it raises, a
    budget of [N >= 1] makes [process_entry] send exactly [N] requests,
    each followed by its warning, write nothing, leave the mapping alone
    and answer [error]. *)
Theorem retry_budget_exhausted url lm a m w :
  skip_check E a lm = false ->
  1 <= retries a ->
  (forall h, http_get E h url = None) ->
  let N := Z.to_nat (retries a) in
  process_entry E url lm a m w
  = ((url, error), m, World (trace w ++ failed_tries url N) (files w)) /\
  Z.of_nat (count is_get (failed_tries url N)) = retries a /\
  count is_write (failed_tries url N) = 0%nat.
Proof.
  intros Hs Hpos Hdown N.
  rewrite process_entry_fetching by assumption.
  rewrite retry_loop_unreachable by assumption.
  destruct (count_failed_tries url N) as (Hg & _ & Hw & _).
  repeat split; [|exact Hw]. rewrite Hg. subst N. lia.
Qed.

(** One pass through the loop body in which the request succeeds, the
    cleanup is requested and available, and the transformer raises. *)
Lemma attempt_degrades url a m w content fname :
  readability a = true -> HAVE_READABILITY E = true ->
  http_get E (trace w) url = Some content ->
  readability_summary E content = None ->
  url_to_filename url = Some fname ->
  disk_write E (trace w ++ [EvGet url (Some content); EvLog (LogCleanFailed url)])
    (path_join (output_dir a) fname) = Written ->
  attempt E url a m w
  = (Some saved, <[url := fname]> m,
     World (trace w ++ [EvGet url (Some content); EvLog (LogCleanFailed url);
                        EvWrite (path_join (output_dir a) fname) (FBytes content) Written])
           (<[path_join (output_dir a) fname := FBytes content]> (files w))).
Proof.
  intros Hr Hh Hget Hsum Hname Hdisk.
  unfold attempt, fetch_url, write_file, logging, emit. simpl.
  rewrite Hget, Hr, Hh. simpl. rewrite Hsum, Hname. simpl.
  rewrite <- !app_assoc. simpl. rewrite Hdisk.
  reflexivity.
Qed.

(** C4: an entry that is not skipped, whose request succeeds and whose
    cleanup is requested and available but raises, is still [saved]: the
    file written holds the bytes as they were fetched, and only a warning
    records the failure of the transformer. *)
Theorem transformer_failure_keeps_original url lm a m w content fname :
  skip_check E a lm = false ->
  1 <= retries a ->
  readability a = true -> HAVE_READABILITY E = true ->
  http_get E (trace w) url = Some content ->
  readability_summary E content = None ->
  url_to_filename url = Some fname ->
  disk_write E (trace w ++ [EvGet url (Some content); EvLog (LogCleanFailed url)])
    (path_join (output_dir a) fname) = Written ->
  let dest := path_join (output_dir a) fname in
  let r := process_entry E url lm a m w in
  result_of r = (url, saved) /\
  map_of r = <[url := fname]> m /\
  files (world_of r) = <[dest := FBytes content]> (files w) /\
  files (world_of r) !! dest = Some (FBytes content) /\
  trace (world_of r)
  = trace w ++ [EvGet url (Some content); EvLog (LogCleanFailed url);
                EvWrite dest (FBytes content) Written].
Proof.
  intros Hs Hpos Hr Hh Hget Hsum Hname Hdisk dest r. subst r dest.
  rewrite process_entry_fetching by assumption.
  destruct (Z.to_nat (retries a)) as [|n] eqn:Hn; [lia|].
  simpl. rewrite (attempt_degrades url a m w content fname) by assumption.
  unfold result_of, map_of, world_of. simpl.
  repeat split. apply lookup_insert_eq.
Qed.


(** One pass through the loop body whose request succeeds and whose later
    steps raise: the pass raises, after one successful request and, when
    the URL has a filename, one write. *)
Lemma attempt_later_step_raises url a m w :
  (readability a = true -> HAVE_READABILITY E = true) ->
  (forall h, http_get E h url <> None) ->
  (forall h p, disk_write E h p <> Written) ->
  let r := attempt E url a m w in
  result_of r = None /\
  count is_get (trace (world_of r)) = S (count is_get (trace w)) /\
  count is_get_ok (trace (world_of r)) = S (count is_get_ok (trace w)) /\
  count is_retry_log (trace (world_of r)) = count is_retry_log (trace w) /\
  count is_write (trace (world_of r))
  = (count is_write (trace w) + if url_to_filename url is Some _ then 1 else 0)%nat.
Proof.
  intros Hhave Hup Hdisk r. subst r.
  pose proof (Hup (trace w)) as Hup'.
  unfold attempt, fetch_url, write_file, logging, emit, result_of, map_of, world_of.
  destruct (http_get E (trace w) url) as [content|]; [|congruence]. simpl.
  destruct (readability a); simpl.
  - rewrite (Hhave eq_refl). simpl.
    destruct (readability_summary E content); simpl;
      destruct (url_to_filename url); simpl;
      try match goal with
          | |- context [disk_write E ?h ?p] =>
              pose proof (Hdisk h p); destruct (disk_write E h p); try congruence
          end; simpl; rewrite ?count_app; unfold count; simpl; repeat split; lia.
  - destruct (url_to_filename url); simpl;
      try match goal with
          | |- context [disk_write E ?h ?p] =>
              pose proof (Hdisk h p); destruct (disk_write E h p); try congruence
          end; simpl; rewrite ?count_app; unfold count; simpl; repeat split; lia.
Qed.

(** C10: when the entry is not skipped, every request succeeds and every
    write of the artifact raises, each pass through the loop body uses up
    one attempt and the next pass starts again at the request: with a budget
    of [N >= 1] there are [N] requests, all of them successful, [N] warnings
    and, when the URL has a filename, [N] writes, and the entry ends in
    [error] with the mapping untouched. *)
Theorem later_failure_consumes_retry url lm a m w :
  skip_check E a lm = false ->
  1 <= retries a ->
  (readability a = true -> HAVE_READABILITY E = true) ->
  (forall h, http_get E h url <> None) ->
  (forall h p, disk_write E h p <> Written) ->
  let r := process_entry E url lm a m w in
  let grown p := Z.of_nat (count p (trace (world_of r))) - Z.of_nat (count p (trace w)) in
  result_of r = (url, error) /\
  map_of r = m /\
  grown is_get = retries a /\
  grown is_get_ok = retries a /\
  grown is_retry_log = retries a /\
  (url_to_filename url <> None -> grown is_write = retries a).
Proof.
  intros Hs Hpos Hhave Hup Hdisk r grown. subst grown r.
  rewrite process_entry_fetching by assumption.
  set (N := Z.to_nat (retries a)).
  assert (HN : Z.of_nat N = retries a) by (subst N; lia).
  assert (Hall : forall p k,
    (forall m w j,
       count p (trace (logging (LogFetchError url j) (world_of (attempt E url a m w))))
       = (count p (trace w) + k)%nat) ->
    result_of (retry_loop E N url a m w) = error /\
    map_of (retry_loop E N url a m w) = m /\
    Z.of_nat (count p (trace (world_of (retry_loop E N url a m w))))
    - Z.of_nat (count p (trace w)) = Z.of_nat (N * k)).
  { intros p k Hk.
    destruct (retry_loop_all_raise E url a p k N) with (m := m) (w := w)
      as (Hr & Hm & Hc).
    - intros m1 w1 j. split; [|apply Hk].
      now apply (attempt_later_step_raises url a m1 w1).
    - repeat split; [exact Hr | exact Hm |]. rewrite Hc. lia. }
  unfold result_of, map_of, world_of in *. simpl.
  destruct (Hall is_get 1%nat) as (Hr & Hm & Hg).
  { intros m1 w1 j. rewrite count_logging. simpl.
    destruct (attempt_later_step_raises url a m1 w1 Hhave Hup Hdisk)
      as (_ & H1 & _). unfold world_of in H1. lia. }
  destruct (Hall is_get_ok 1%nat) as (_ & _ & Hgo).
  { intros m1 w1 j. rewrite count_logging. simpl.
    destruct (attempt_later_step_raises url a m1 w1 Hhave Hup Hdisk)
      as (_ & _ & H1 & _). unfold world_of in H1. lia. }
  destruct (Hall is_retry_log 1%nat) as (_ & _ & Hl).
  { intros m1 w1 j. rewrite count_logging. simpl.
    destruct (attempt_later_step_raises url a m1 w1 Hhave Hup Hdisk)
      as (_ & _ & _ & H1 & _). unfold world_of in H1. lia. }
  rewrite Hr, Hm. repeat split; try lia.
  intros Hname.
  destruct (Hall is_write 1%nat) as (_ & _ & Hw); [|lia].
  intros m1 w1 j. rewrite count_logging. simpl.
  destruct (attempt_later_step_raises url a m1 w1 Hhave Hup Hdisk)
    as (_ & _ & _ & _ & H1). unfold world_of in H1.
  destruct (url_to_filename url); [lia | congruence].
Qed.

End ProcessEntry.

(** ** The pool and the run *)

Section Pool.

Context (E : env).


Lemma count_quiet evs : quiet evs -> count is_time evs = 0%nat.
Proof.
  unfold count. induction 1 as [|e evs He _ IH]; simpl; [reflexivity|].
  now rewrite He.
Qed.




Lemma process_entry_url url lm a m w :
  (result_of (process_entry E url lm a m w)).1 = url.
Proof.
  unfold process_entry. destruct (skip_check E a lm); [reflexivity|].
  now destruct (retry_loop E (Z.to_nat (retries a)) url a m w) as [[s m'] w'].
Qed.

(** What [process_entry] does to the mapping. *)
Lemma process_entry_map url lm a m w :
  (status_of (process_entry E url lm a m w) = saved ->
   exists fname, url_to_filename url = Some fname /\
                 map_of (process_entry E url lm a m w) = <[url := fname]> m) /\
  (status_of (process_entry E url lm a m w) <> saved ->
   map_of (process_entry E url lm a m w) = m).
Proof.
  destruct (skip_check E a lm) eqn:Hs.
  - unfold process_entry. rewrite Hs. unfold status_of, result_of, map_of. simpl.
    split; [discriminate|reflexivity].
  - rewrite process_entry_fetching by assumption.
    unfold status_of, result_of, map_of. simpl.
    apply (retry_loop_map E (Z.to_nat (retries a)) url a m w).
Qed.

Lemma run_pool_outcomes a n : forall pending m w,
  n = length pending ->
  map fst (result_of (run_pool E n pending a m w)) ≡ₚ map fst pending.
Proof.
  induction n as [|n IH]; intros pending m w Hlen; simpl.
  - destruct pending; [reflexivity|discriminate].
  - set (i := (next_task E (trace w) mod length pending)%nat).
    assert (Hi : (i < length pending)%nat)
      by (subst i; apply Nat.mod_upper_bound; lia).
    destruct (lookup_lt_is_Some_2 pending i Hi) as [[url lm] Hlk].
    rewrite Hlk.
    pose proof (process_entry_url url lm a m w) as Hurl.
    destruct (process_entry E url lm a m w) as [[r m1] w1].
    unfold result_of in Hurl. simpl in Hurl.
    specialize (IH (delete i pending) m1 (logging (LogStatus r.2 r.1) w1)).
    destruct (run_pool E n (delete i pending) a m1 (logging (LogStatus r.2 r.1) w1))
      as [[rs m2] w3].
    unfold result_of in *. simpl in *.
    subst. transitivity (map fst ((r.1, lm) :: delete i pending)).
    + simpl. apply perm_skip. apply IH.
      rewrite length_delete by eauto. lia.
    + apply Permutation_map. symmetry. now apply delete_Permutation.
Qed.

Lemma run_pool_map a n : forall pending m w u,
  let r := run_pool E n pending a m w in
  ((u, saved) ∈ result_of r ->
   exists fname, url_to_filename u = Some fname /\ map_of r !! u = Some fname) /\
  ((u, saved) ∉ result_of r -> map_of r !! u = m !! u).
Proof.
  induction n as [|n IH]; intros pending m w u; simpl.
  - unfold result_of, map_of. simpl. split; [|reflexivity].
    intros Hin. now apply elem_of_nil in Hin.
  - destruct (pending !! (next_task E (trace w) mod length pending)%nat)
      as [[url lm]|] eqn:Hlk.
    2:{ unfold result_of, map_of. simpl. split; [|reflexivity].
        intros Hin. now apply elem_of_nil in Hin. }
    pose proof (process_entry_url url lm a m w) as Hurl.
    pose proof (process_entry_map url lm a m w) as [Hsv Hns].
    destruct (process_entry E url lm a m w) as [[[u1 s1] m1] w1].
    unfold status_of, result_of, map_of in Hurl, Hsv, Hns. simpl in Hurl, Hsv, Hns.
    subst u1.
    specialize (IH (delete (next_task E (trace w) mod length pending)%nat pending) m1
                   (logging (LogStatus s1 url) w1) u).
    simpl in IH. simpl.
    destruct (run_pool E n _ a m1 (logging (LogStatus s1 url) w1)) as [[rs m2] w3].
    unfold result_of, map_of in *. simpl in *.
    destruct IH as [IHin IHout]. split.
    + intros Hin. destruct (decide ((u, saved) ∈ rs)) as [Hrs|Hrs]; [now apply IHin|].
      apply elem_of_cons in Hin as [[= -> <-]|Hin]; [|contradiction].
      destruct (Hsv eq_refl) as (fname & Hname & Hm1).
      exists fname. split; [exact Hname|].
      rewrite (IHout Hrs), Hm1. apply lookup_insert_eq.
    + intros Hout. apply not_elem_of_cons in Hout as [Hne Hrs].
      rewrite (IHout Hrs).
      destruct (decide (s1 = saved)) as [->|Hs1].
      * destruct (Hsv eq_refl) as (fname & _ & ->).
        apply lookup_insert_ne. congruence.
      * now rewrite (Hns Hs1).
Qed.



(** The two ways [main] can go: it stops before anything is scheduled, or
    it runs the pool over the limited catalog and then writes the run marker
    and the mapping. *)
Lemma main_cases a w :
  (run_end_of (main E a w) = StartupFailed /\ scheduled (main E a w) = [] /\
   outcomes (main E a w) = [] /\ final_map (main E a w) = ∅) \/
  (exists lrt xml entries,
     load_last_run (output_dir a) w = Some lrt /\
     http_get E (trace w) (sitemap_url a) = Some xml /\
     sitemap_entries E xml = Some entries /\
     let es := apply_limit (limit a) entries in
     let pool := run_pool E (length es) es (with_last_run lrt a) ∅
                   (emit (EvGet (sitemap_url a) (Some xml)) w) in
     let t := time_time E (trace (world_of pool)) in
     let marker := path_join (output_dir a) LAST_RUN_FILE in
     let mapping := path_join (output_dir a) MAPPING_FILE in
     let r1 := disk_write E (trace (world_of pool)) marker in
     let r2 := disk_write E (trace (world_of pool)
                               ++ [EvTime t; EvWrite marker (FJson (Some t)) Written])
                 mapping in
     scheduled (main E a w) = es /\
     outcomes (main E a w) = result_of pool /\
     final_map (main E a w) = map_of pool /\
     run_end_of (main E a w) <> StartupFailed /\
     (r1 = Written -> r2 = Written -> run_end_of (main E a w) = Completed) /\
     trace (final_world (main E a w))
     = trace (world_of pool)
         ++ match r1 with
            | OpenFailed => [EvOpenFailed marker]
            | Written => [EvTime t; EvWrite marker (FJson (Some t)) Written;
                          EvWrite mapping (FCsv (map_of pool)) r2]
            | WriteFailed rest =>
                [EvTime t; EvWrite marker (FJson (Some t)) (WriteFailed rest)]
            end /\
     (r1 = Written -> r2 = Written ->
      files (final_world (main E a w))
      = <[mapping := FCsv (map_of pool)]>
          (<[marker := FJson (Some t)]> (files (world_of pool)))) /\
     1 <= workers a).
Proof.
  unfold main.
  destruct (makedirs_ok E (output_dir a)); simpl; [|now left].
  destruct (load_last_run (output_dir a) w) as [lrt|]; [|now left].
  unfold fetch_url. simpl.
  destruct (http_get E (trace w) (sitemap_url a)) as [xml|] eqn:Hget; [|now left].
  destruct (sitemap_entries E xml) as [entries|] eqn:Hxml; [|now left].
  destruct (Z.leb_spec (workers a) 0) as [Hw|Hw]; [now left|].
  right. exists lrt, xml, entries.
  repeat (split; [first [assumption | reflexivity]|]).
  cbv zeta. unfold emit. simpl.
  destruct (run_pool E (length (apply_limit (limit a) entries))
              (apply_limit (limit a) entries) (with_last_run lrt a) ∅
              (World (trace w ++ [EvGet (sitemap_url a) (Some xml)]) (files w)))
    as [[rs mp] w2] eqn:Hpool.
  unfold save_last_run, write_mapping, write_file, emit, result_of, map_of, world_of.
  simpl.
  destruct (disk_write E (trace w2) (path_join (output_dir a) LAST_RUN_FILE)) eqn:Hr1;
    simpl; rewrite <- ?app_assoc; simpl;
    try (destruct (disk_write E
                     (trace w2 ++ [EvTime (time_time E (trace w2));
                                   EvWrite (path_join (output_dir a) LAST_RUN_FILE)
                                     (FJson (Some (time_time E (trace w2)))) Written])
                     (path_join (output_dir a) MAPPING_FILE)) eqn:Hr2; simpl);
    rewrite <- ?app_assoc; simpl;
    repeat split; try reflexivity; try discriminate; try lia; intros; discriminate.
Qed.

End Pool.

(** ** The run *)

Section Run.

Context (E : env).

Lemma marker_is_not_mapping dir :
  path_join dir LAST_RUN_FILE <> path_join dir MAPPING_FILE.
Proof.
  unfold path_join.
  change (startswith_sep LAST_RUN_FILE) with false.
  change (startswith_sep MAPPING_FILE) with false.
  destruct (bool_decide (dir = []) || endswith_sep dir); intros Heq;
    apply app_inv_head in Heq; discriminate.
Qed.



(** C6: at the end of a run the mapping holds a URL exactly when one of the
    outcomes for that URL is [saved]; a URL whose outcomes are all [skipped]
    or [error] is absent; the one filename a URL is mapped to is its
    [url_to_filename]; and the outcomes are those of the scheduled
    entries, one for each. *)
Theorem mapping_holds_exactly_the_saved a w :
  let r := main E a w in
  (forall url, is_Some (final_map r !! url) <-> (url, saved) ∈ outcomes r) /\
  (forall url,
     (forall st, (url, st) ∈ outcomes r -> st = skipped \/ st = error) ->
     final_map r !! url = None) /\
  (forall url fname, final_map r !! url = Some fname -> url_to_filename url = Some fname) /\
  map fst (outcomes r) ≡ₚ map fst (scheduled r).
Proof.
  intros r. subst r.
  assert (Hiff : forall url,
            is_Some (final_map (main E a w) !! url) <-> (url, saved) ∈ outcomes (main E a w)).
  { intros url.
    destruct (main_cases E a w) as [(_ & _ & Ho & Hm)|(lrt & xml & entries & _ & _ & _ & Hrun)].
    - rewrite Ho, Hm, lookup_empty. split; [intros [x Hx]; discriminate|].
      intros Hin. now apply elem_of_nil in Hin.
    - cbv zeta in Hrun. destruct Hrun as (_ & -> & -> & _).
      match goal with
      | |- context [run_pool E ?n ?p ?a' ∅ ?w'] =>
          destruct (run_pool_map E a' n p ∅ w' url) as [Hin Hout]
      end.
      split.
      + intros Hsome. match goal with
          | |- ?P => destruct (decide P) as [Hd|Hd]; [exact Hd|]
          end.
        rewrite (Hout Hd), lookup_empty in Hsome. now destruct Hsome.
      + intros Hsv. destruct (Hin Hsv) as (fname & _ & ->). eauto. }
  split; [exact Hiff|]. split; [|split].
  - intros url Hall. destruct (final_map (main E a w) !! url) eqn:Hlk; [|reflexivity].
    assert (Hsv : (url, saved) ∈ outcomes (main E a w)) by (apply Hiff; rewrite Hlk; eauto).
    destruct (Hall saved Hsv); discriminate.
  - intros url fname Hlk.
    assert (Hsv : (url, saved) ∈ outcomes (main E a w)) by (apply Hiff; rewrite Hlk; eauto).
    destruct (main_cases E a w) as [(_ & _ & Ho & _)|(lrt & xml & entries & _ & _ & _ & Hrun)].
    + rewrite Ho in Hsv. now apply elem_of_nil in Hsv.
    + cbv zeta in Hrun. destruct Hrun as (_ & Ho & Hm & _).
      rewrite Ho in Hsv. rewrite Hm in Hlk.
      match type of Hsv with
      | context [run_pool E ?n ?p ?a' ∅ ?w'] =>
          destruct (run_pool_map E a' n p ∅ w' url) as [Hin _]
      end.
      destruct (Hin Hsv) as (f & Hname & Hlk'). congruence.
  - destruct (main_cases E a w) as [(_ & -> & -> & _)|(lrt & xml & entries & _ & _ & _ & Hrun)];
      [reflexivity|].
    cbv zeta in Hrun. destruct Hrun as (-> & -> & _).
    now apply run_pool_outcomes.
Qed.


Lemma slice_to_positive {A} (l : list A) k :
  1 <= k ->
  slice_to l k = firstn (Z.to_nat (Z.min k (Z.of_nat (length l)))) l.
Proof.
  intros Hk. unfold slice_to.
  destruct (Z.ltb_spec k 0) as [Hneg|_]; [lia|].
  destruct (Z.le_gt_cases k (Z.of_nat (length l))) as [Hle|Hgt].
  - now rewrite Z.min_l by lia.
  - rewrite Z.min_r by lia. rewrite Nat2Z.id.
    rewrite !firstn_all2; [reflexivity | lia | lia].
Qed.

(** C9 (amended): in a run that gets as far as scheduling (its start-up
    succeeded, so the pool has at least one worker), the limit is applied to
    the parsed catalog before anything is scheduled.  A limit of at least
    one keeps the first [min limit length] entries in parse order and no
    others; no limit, or a limit of zero, keeps the whole catalog.  One
    outcome is collected for each entry that was kept. *)
Theorem limit_keeps_the_first_entries a w xml entries :
  run_end_of (main E a w) <> StartupFailed ->
  http_get E (trace w) (sitemap_url a) = Some xml ->
  sitemap_entries E xml = Some entries ->
  let r := main E a w in
  (forall k, limit a = Some k -> 1 <= k ->
     scheduled r = firstn (Z.to_nat (Z.min k (Z.of_nat (length entries)))) entries /\
     Z.of_nat (length (scheduled r)) = Z.min k (Z.of_nat (length entries))) /\
  (limit a = None \/ limit a = Some 0 -> scheduled r = entries) /\
  map fst (outcomes r) ≡ₚ map fst (scheduled r) /\
  1 <= workers a.
Proof.
  intros Hstarted Hget Hxml r. subst r.
  destruct (main_cases E a w) as [(Hfail & _)|(lrt & xml' & entries' & _ & Hget' & Hxml' & Hrun)];
    [contradiction|].
  rewrite Hget in Hget'. injection Hget' as <-.
  rewrite Hxml in Hxml'. injection Hxml' as <-.
  cbv zeta in Hrun. destruct Hrun as (Hsched & Hout & _ & _ & _ & _ & _ & Hworkers).
  split; [|split; [|split; [|exact Hworkers]]].
  - intros k Hlim Hk. rewrite Hsched, Hlim. simpl.
    destruct (Z.eqb_spec k 0) as [->|_]; [lia|].
    rewrite slice_to_positive by assumption. split; [reflexivity|].
    rewrite length_firstn. lia.
  - intros [Hlim|Hlim]; rewrite Hsched, Hlim; reflexivity.
  - rewrite Hout, Hsched. now apply run_pool_outcomes.
Qed.

End Run.

(** ** The properties on concrete runs *)

(** "Skipped iff not forced, a previous run time exists, the time stamp
    parses and is at most it", as the specification puts it, fails when the
    previous run time is
    [0.0]: the time stamp of 1969 is older, and still the page is fetched. *)
Lemma zero_marker_is_not_skipped :
  ~ (status_of (process_entry (env_up true Some) (lit "http://a/1")
                  (Some (lit "1969-12-31T00:00:00+0000"))
                  (with_last_run (Some 0%Q) base_args) ∅ w0) = skipped
     <->
     force (with_last_run (Some 0%Q) base_args) = false /\
     exists lrt s ts,
       last_run_time (with_last_run (Some 0%Q) base_args) = Some lrt /\
       Some (lit "1969-12-31T00:00:00+0000") = Some s /\
       mktime_strptime (env_up true Some) s = Some ts /\ (ts <= lrt)%Q).
Proof.
  intros [_ Hskip].
  assert (Hs : status_of (process_entry (env_up true Some) (lit "http://a/1")
                            (Some (lit "1969-12-31T00:00:00+0000"))
                            (with_last_run (Some 0%Q) base_args) ∅ w0) = skipped).
  { apply Hskip. split; [reflexivity|].
    exists 0%Q, (lit "1969-12-31T00:00:00+0000"), (inject_Z (-86400)).
    repeat split. vm_compute. discriminate. }
  vm_compute in Hs. discriminate.
Qed.

Lemma skipped_iff_unforced_and_not_newer_witness :
  (status_of (process_entry (env_up true Some) (lit "http://a/2")
                (Some (lit "2020-01-01T00:00:00+0000"))
                (with_last_run (Some (inject_Z 1609459200)) base_args) ∅ w0) = skipped
   <->
   force (with_last_run (Some (inject_Z 1609459200)) base_args) = false /\
   exists lrt s ts,
     last_run_time (with_last_run (Some (inject_Z 1609459200)) base_args) = Some lrt /\
     ~ (lrt == 0)%Q /\
     Some (lit "2020-01-01T00:00:00+0000") = Some s /\
     mktime_strptime (env_up true Some) s = Some ts /\ (ts <= lrt)%Q) /\
  (status_of (process_entry (env_up true Some) (lit "http://a/2")
                (Some (lit "2020-01-01T00:00:00+0000"))
                (with_last_run (Some (inject_Z 1609459200)) base_args) ∅ w0) = skipped ->
   world_of (process_entry (env_up true Some) (lit "http://a/2")
               (Some (lit "2020-01-01T00:00:00+0000"))
               (with_last_run (Some (inject_Z 1609459200)) base_args) ∅ w0) = w0 /\
   map_of (process_entry (env_up true Some) (lit "http://a/2")
             (Some (lit "2020-01-01T00:00:00+0000"))
             (with_last_run (Some (inject_Z 1609459200)) base_args) ∅ w0) = ∅) /\
  (status_of (process_entry (env_up true Some) (lit "http://a/2")
                (Some (lit "2020-01-01T00:00:00+0000"))
                (with_last_run (Some (inject_Z 1609459200)) base_args) ∅ w0) <> skipped ->
   1 <= retries (with_last_run (Some (inject_Z 1609459200)) base_args) ->
   (count is_get (trace w0)
    < count is_get
        (trace (world_of (process_entry (env_up true Some) (lit "http://a/2")
                            (Some (lit "2020-01-01T00:00:00+0000"))
                            (with_last_run (Some (inject_Z 1609459200)) base_args) ∅ w0))))%nat).
Proof.
  apply (skipped_iff_unforced_and_not_newer (env_up true Some) (lit "http://a/2")
           (Some (lit "2020-01-01T00:00:00+0000"))
           (with_last_run (Some (inject_Z 1609459200)) base_args) ∅ w0).
  reflexivity.
Defined.

(** The entry of the witness above is indeed skipped, and an entry without
    a time stamp is fetched. *)
Example older_entry_is_skipped :
  process_entry (env_up true Some) (lit "http://a/2")
    (Some (lit "2020-01-01T00:00:00+0000"))
    (with_last_run (Some (inject_Z 1609459200)) base_args) ∅ w0
  = ((lit "http://a/2", skipped), ∅, w0).
Proof. vm_compute. reflexivity. Qed.

Example entry_without_lastmod_is_fetched :
  status_of (process_entry (env_up true Some) (lit "http://a/1") None
               (with_last_run (Some (inject_Z 1609459200)) base_args) ∅ w0) = saved.
Proof. vm_compute. reflexivity. Qed.

Lemma retry_budget_exhausted_witness :
  process_entry env_down (lit "http://a/1") None base_args ∅ w0
  = ((lit "http://a/1", error), ∅,
     World (trace w0 ++ failed_tries (lit "http://a/1") (Z.to_nat (retries base_args)))
           (files w0)) /\
  Z.of_nat (count is_get (failed_tries (lit "http://a/1") (Z.to_nat (retries base_args))))
  = retries base_args /\
  count is_write (failed_tries (lit "http://a/1") (Z.to_nat (retries base_args))) = 0%nat.
Proof.
  apply (retry_budget_exhausted env_down (lit "http://a/1") None base_args ∅ w0).
  - reflexivity.
  - simpl. lia.
  - intros h. reflexivity.
Defined.



Lemma transformer_failure_keeps_original_witness :
  result_of (process_entry (env_up true (fun _ => None)) (lit "http://a/1") None
               (with_readability base_args) ∅ w0) = (lit "http://a/1", saved) /\
  map_of (process_entry (env_up true (fun _ => None)) (lit "http://a/1") None
            (with_readability base_args) ∅ w0)
  = <[lit "http://a/1" := lit "f9b968e7dbf1f88ba0cf909900bebfd6.html"]> ∅ /\
  files (world_of (process_entry (env_up true (fun _ => None)) (lit "http://a/1") None
                     (with_readability base_args) ∅ w0))
  = <[path_join (output_dir (with_readability base_args))
        (lit "f9b968e7dbf1f88ba0cf909900bebfd6.html") := FBytes page]> (files w0) /\
  files (world_of (process_entry (env_up true (fun _ => None)) (lit "http://a/1") None
                     (with_readability base_args) ∅ w0))
    !! path_join (output_dir (with_readability base_args))
         (lit "f9b968e7dbf1f88ba0cf909900bebfd6.html")
  = Some (FBytes page) /\
  trace (world_of (process_entry (env_up true (fun _ => None)) (lit "http://a/1") None
                     (with_readability base_args) ∅ w0))
  = trace w0 ++ [EvGet (lit "http://a/1") (Some page);
                 EvLog (LogCleanFailed (lit "http://a/1"));
                 EvWrite (path_join (output_dir (with_readability base_args))
                            (lit "f9b968e7dbf1f88ba0cf909900bebfd6.html"))
                   (FBytes page) Written].
Proof.
  apply (transformer_failure_keeps_original (env_up true (fun _ => None))
           (lit "http://a/1") None (with_readability base_args) ∅ w0 page
           (lit "f9b968e7dbf1f88ba0cf909900bebfd6.html")).
  - reflexivity.
  - simpl. lia.
  - reflexivity.
  - reflexivity.
  - reflexivity.
  - reflexivity.
  - vm_compute. reflexivity.
  - reflexivity.
Defined.


Lemma later_failure_consumes_retry_witness :
  result_of (process_entry env_readonly (lit "http://a/1") None base_args ∅ w0)
  = (lit "http://a/1", error) /\
  map_of (process_entry env_readonly (lit "http://a/1") None base_args ∅ w0) = ∅ /\
  Z.of_nat (count is_get
              (trace (world_of (process_entry env_readonly (lit "http://a/1") None
                                  base_args ∅ w0))))
  - Z.of_nat (count is_get (trace w0)) = retries base_args /\
  Z.of_nat (count is_get_ok
              (trace (world_of (process_entry env_readonly (lit "http://a/1") None
                                  base_args ∅ w0))))
  - Z.of_nat (count is_get_ok (trace w0)) = retries base_args /\
  Z.of_nat (count is_retry_log
              (trace (world_of (process_entry env_readonly (lit "http://a/1") None
                                  base_args ∅ w0))))
  - Z.of_nat (count is_retry_log (trace w0)) = retries base_args /\
  (url_to_filename (lit "http://a/1") <> None ->
   Z.of_nat (count is_write
               (trace (world_of (process_entry env_readonly (lit "http://a/1") None
                                   base_args ∅ w0))))
   - Z.of_nat (count is_write (trace w0)) = retries base_args).
Proof.
  apply (later_failure_consumes_retry env_readonly (lit "http://a/1") None base_args ∅ w0).
  - reflexivity.
  - simpl. lia.
  - intros Hr. discriminate Hr.
  - intros h. discriminate.
  - intros h p. discriminate.
Defined.

(** A run over [catalog5]: two pages cannot be fetched, the others are
    saved, and the run completes. *)
Example run_over_catalog5 :
  run_end_of (main env_site base_args w0) = Completed /\
  scheduled (main env_site base_args w0) = catalog5 /\
  outcomes (main env_site base_args w0)
  = [ (lit "http://a/2", saved); (lit "http://a/1", saved); (lit "http://a/4", error);
      (lit "http://a/3", error); (lit "http://a/5", saved) ] /\
  final_map (main env_site base_args w0) !! lit "http://a/1"
  = Some (lit "f9b968e7dbf1f88ba0cf909900bebfd6.html") /\
  final_map (main env_site base_args w0) !! lit "http://a/3" = None /\
  size (final_map (main env_site base_args w0)) = 3%nat.
Proof. repeat split; vm_compute; reflexivity. Qed.



(** "For every limit value the first [min limit length] entries are
    scheduled", as the specification puts it, fails at a limit of zero: the whole catalog of five
    entries is scheduled, not none of it. *)
Lemma limit_zero_schedules_everything :
  scheduled (main env_site (with_limit (Some 0) base_args) w0) = catalog5 /\
  scheduled (main env_site (with_limit (Some 0) base_args) w0)
  <> firstn (Z.to_nat (Z.min 0 (Z.of_nat (length catalog5)))) catalog5.
Proof.
  split; [vm_compute; reflexivity|].
  replace (scheduled (main env_site (with_limit (Some 0) base_args) w0)) with catalog5
    by (vm_compute; reflexivity).
  discriminate.
Qed.

Lemma limit_keeps_the_first_entries_witness :
  (forall k, limit (with_limit (Some 1) base_args) = Some k -> 1 <= k ->
     scheduled (main env_site (with_limit (Some 1) base_args) w0)
     = firstn (Z.to_nat (Z.min k (Z.of_nat (length catalog5)))) catalog5 /\
     Z.of_nat (length (scheduled (main env_site (with_limit (Some 1) base_args) w0)))
     = Z.min k (Z.of_nat (length catalog5))) /\
  (limit (with_limit (Some 1) base_args) = None \/
   limit (with_limit (Some 1) base_args) = Some 0 ->
   scheduled (main env_site (with_limit (Some 1) base_args) w0) = catalog5) /\
  map fst (outcomes (main env_site (with_limit (Some 1) base_args) w0))
  ≡ₚ map fst (scheduled (main env_site (with_limit (Some 1) base_args) w0)) /\
  1 <= workers (with_limit (Some 1) base_args).
Proof.
  apply (limit_keeps_the_first_entries env_site (with_limit (Some 1) base_args) w0
           page catalog5).
  - vm_compute. discriminate.
  - reflexivity.
  - reflexivity.
Defined.

(** With a limit of one on the catalog of five entries only the first entry
    is scheduled. *)
Example limit_one_of_five :
  scheduled (main env_site (with_limit (Some 1) base_args) w0)
  = [(lit "http://a/1", None)] /\
  outcomes (main env_site (with_limit (Some 1) base_args) w0)
  = [(lit "http://a/1", saved)].
Proof. split; vm_compute; reflexivity. Qed.

(** A negative limit drops entries from the end, as a Python slice does. *)
Example limit_minus_one_of_five :
  map fst (scheduled (main env_site (with_limit (Some (-1)) base_args) w0))
  = [lit "http://a/1"; lit "http://a/2"; lit "http://a/3"; lit "http://a/4"].
Proof. vm_compute. reflexivity. Qed.

(** Two distinct URLs of the catalog get distinct filenames. *)
Example filenames_differ :
  url_to_filename (lit "http://a/1") <> url_to_filename (lit "http://a/2").
Proof. vm_compute. discriminate. Qed.

(** The catalog of two entries without a previous run: both pages are
    saved and the mapping has two rows. *)
Example two_entries_first_run :
  outcomes (main env_two base_args w0)
  = [(lit "http://a/1", saved); (lit "http://a/2", saved)] /\
  size (final_map (main env_two base_args w0)) = 2%nat.
Proof. split; vm_compute; reflexivity. Qed.

(** The same catalog after a run that ended in 2021: the entry stamped 2020
    is skipped, the entry without a time stamp is fetched. *)
Example two_entries_second_run :
  outcomes (main env_two base_args w_2021)
  = [(lit "http://a/1", saved); (lit "http://a/2", skipped)] /\
  size (final_map (main env_two base_args w_2021)) = 1%nat.
Proof. split; vm_compute; reflexivity. Qed.

(** With [--force] nothing is skipped. *)
Example two_entries_forced :
  outcomes (main env_two
              (Args (lit "http://a/sitemap.xml") (lit "tmp") None true 5 3 false None)
              w_2021)
  = [(lit "http://a/1", saved); (lit "http://a/2", saved)].
Proof. vm_compute. reflexivity. Qed.

(** When the run marker cannot be opened, [main] stops there: the clock is
    not read and the mapping file is not written either. *)
Example locked_marker_stops_the_run :
  run_end_of (main env_marker_locked base_args w0) = PersistFailed /\
  files (final_world (main env_marker_locked base_args w0))
    !! path_join (lit "tmp") MAPPING_FILE = None /\
  count is_time (trace (final_world (main env_marker_locked base_args w0))) = 0%nat.
Proof. repeat split; vm_compute; reflexivity. Qed.

(** ** More on the artifact namer *)

Section NamerShape.

Lemma utf8_encode_cp_scalar c :
  utf8_encode_cp c <> None <-> is_scalar_value c = true.
Proof.
  unfold utf8_encode_cp, is_scalar_value.
  repeat match goal with
         | |- context [?x <? ?y] => destruct (Z.ltb_spec x y)
         | |- context [?x <=? ?y] => destruct (Z.leb_spec x y)
         end; simpl; split; intros Hc; try reflexivity; try discriminate;
    try lia; try (now contradiction Hc).
Qed.

Lemma utf8_encode_scalar u :
  utf8_encode u <> None <-> forallb is_scalar_value u = true.
Proof.
  induction u as [|c u IH]; simpl.
  - split; [reflexivity|discriminate].
  - rewrite andb_true_iff, <- IH, <- utf8_encode_cp_scalar.
    destruct (utf8_encode_cp c), (utf8_encode u); split;
      intros H; try discriminate; try (now split); try (now destruct H as [H1 H2]).
Qed.

Lemma hex_digit_lower n : 0 <= n < 16 -> is_lower_hex (hex_digit n) = true.
Proof.
  intros Hn. unfold hex_digit, is_lower_hex.
  destruct (Z.ltb_spec n 10).
  - assert (H1 : (48 <=? 48 + n) = true) by (apply Z.leb_le; lia).
    assert (H2 : (48 + n <=? 57) = true) by (apply Z.leb_le; lia).
    now rewrite H1, H2.
  - assert (H1 : (97 <=? 87 + n) = true) by (apply Z.leb_le; lia).
    assert (H2 : (87 + n <=? 102) = true) by (apply Z.leb_le; lia).
    rewrite H1, H2. apply orb_true_r.
Qed.

Lemma hexlify_shape bs :
  Forall (fun b => 0 <= b < 256) bs ->
  length (hexlify bs) = (2 * length bs)%nat /\
  forallb is_lower_hex (hexlify bs) = true.
Proof.
  induction 1 as [|b bs Hb _ [IHl IHh]]; simpl; [easy|].
  rewrite IHl, IHh. split; [lia|].
  rewrite !hex_digit_lower; [reflexivity| |].
  - apply Z.mod_pos_bound. lia.
  - split; [apply Z.div_pos; lia | apply Z.div_lt_upper_bound; lia].
Qed.

Lemma digest_shape data :
  length (MD5.digest data) = 16%nat /\
  Forall (fun b => 0 <= b < 256) (MD5.digest data).
Proof.
  unfold MD5.digest.
  set (s := MD5.blocks _ _ _). clearbody s.
  unfold MD5.word_bytes. split; [reflexivity|]. cbn [app].
  repeat (apply List.Forall_cons; [apply Z.mod_pos_bound; lia|]).
  apply List.Forall_nil.
Qed.

Lemma url_to_filename_parts u f :
  url_to_filename u = Some f ->
  exists h, f = h ++ lit ".html" /\ length h = 32%nat /\ forallb is_lower_hex h = true.
Proof.
  unfold url_to_filename, md5_hexdigest.
  destruct (utf8_encode u) as [d|]; [|discriminate].
  intros Hf. apply (inj Some) in Hf. subst f.
  destruct (digest_shape d) as [Hlen Hbytes].
  destruct (hexlify_shape _ Hbytes) as [Hl Hh].
  exists (hexlify (MD5.digest d)). rewrite Hl, Hlen. now repeat split.
Qed.

Lemma url_to_filename_no_sep u f :
  url_to_filename u = Some f -> startswith_sep f = false /\ length f = 37%nat.
Proof.
  intros Hf. destruct (url_to_filename_parts u f Hf) as (h & -> & Hlen & Hhex).
  split; [|rewrite length_app, Hlen; reflexivity].
  destruct h as [|c h]; [discriminate|]. simpl in *.
  apply andb_true_iff in Hhex as [Hc _]. unfold is_lower_hex in Hc.
  destruct (Z.eqb_spec c 47) as [->|]; [discriminate|reflexivity].
Qed.

Lemma unhexlify_hexlify bs :
  Forall (fun b => 0 <= b < 256) bs -> unhexlify (hexlify bs) = Some bs.
Proof.
  induction 1 as [|b bs Hb _ IH]; [reflexivity|].
  change (hexlify (b :: bs)) with (hex_digit (b / 16) :: hex_digit (b mod 16) :: hexlify bs).
  cbn [unhexlify]. rewrite IH.
  assert (Hv : forall n, 0 <= n < 16 -> hex_value (hex_digit n) = Some n).
  { intros n Hn. unfold hex_value, hex_digit.
    destruct (Z.ltb_spec n 10).
    - replace ((48 <=? 48 + n) && (48 + n <=? 57)) with true
        by (symmetry; apply andb_true_iff; split; apply Z.leb_le; lia).
      f_equal. lia.
    - replace ((48 <=? 87 + n) && (87 + n <=? 57)) with false
        by (symmetry; apply andb_false_iff; right; apply Z.leb_gt; lia).
      replace ((97 <=? 87 + n) && (87 + n <=? 102)) with true
        by (symmetry; apply andb_true_iff; split; apply Z.leb_le; lia).
      f_equal. lia. }
  rewrite !Hv.
  - do 2 f_equal. Z.div_mod_to_equations; lia.
  - apply Z.mod_pos_bound. lia.
  - split; [apply Z.div_pos; lia | apply Z.div_lt_upper_bound; lia].
Qed.

(** C8: the artifact namer is a function of the URL alone (equal URLs get
    equal names).  The name it returns is the MD5 digest of the UTF-8
    encoding of the URL, 16 bytes written as 32 digits from [0-9a-f] that
    read back as the digest, followed by [.html].  Two distinct URLs get
    distinct names unless their encodings are an MD5 collision.  The digest
    is the MD5 of RFC 1321 on its test suite, and the encoding is UTF-8 on
    characters of two, three and four bytes. *)
Theorem url_to_filename_deterministic_injective :
  (forall u1 u2, u1 = u2 -> url_to_filename u1 = url_to_filename u2) /\
  (forall u d, utf8_encode u = Some d ->
     url_to_filename u = Some (hexlify (MD5.digest d) ++ lit ".html")) /\
  (forall u f, url_to_filename u = Some f ->
     exists d,
       utf8_encode u = Some d /\
       length (MD5.digest d) = 16%nat /\
       length f = 37%nat /\
       forallb is_lower_hex (firstn 32 f) = true /\
       unhexlify (firstn 32 f) = Some (MD5.digest d) /\
       skipn 32 f = lit ".html") /\
  (forall u1 u2 d1 d2 f1 f2,
     utf8_encode u1 = Some d1 -> utf8_encode u2 = Some d2 ->
     url_to_filename u1 = Some f1 -> url_to_filename u2 = Some f2 ->
     u1 <> u2 ->
     ~ (d1 <> d2 /\ MD5.digest d1 = MD5.digest d2) ->
     f1 <> f2) /\
  (url_to_filename (lit "") = Some (lit "d41d8cd98f00b204e9800998ecf8427e.html") /\
   url_to_filename (lit "a") = Some (lit "0cc175b9c0f1b6a831c399e269772661.html") /\
   url_to_filename (lit "abc") = Some (lit "900150983cd24fb0d6963f7d28e17f72.html") /\
   url_to_filename (lit "message digest")
   = Some (lit "f96b697d7cb7938d525a2f31aaf161d0.html") /\
   url_to_filename (lit "abcdefghijklmnopqrstuvwxyz")
   = Some (lit "c3fcd3d76192e4007dfb496cca67e13b.html") /\
   url_to_filename
     (lit "ABCDEFGHIJKLMNOPQRSTUVWXYZabcdefghijklmnopqrstuvwxyz0123456789")
   = Some (lit "d174ab98d277d9f5a5611c2c9f419d9f.html") /\
   url_to_filename
     (lit "12345678901234567890123456789012345678901234567890123456789012345678901234567890")
   = Some (lit "57edf4a22be3c955ac49da2e2107b67a.html")) /\
  (utf8_encode [0xE9] = Some [0xC3; 0xA9] /\
   utf8_encode [0x20AC] = Some [0xE2; 0x82; 0xAC] /\
   utf8_encode [0x1F600] = Some [0xF0; 0x9F; 0x98; 0x80] /\
   url_to_filename (lit "http://a/" ++ [0xE9])
   = Some (lit "fc6b6dbb51ee7b594b75c6087853d2db.html")).
Proof.
  split; [now intros u1 u2 ->|]. split; [|split; [|split; [|split]]].
  - intros u d Hd. unfold url_to_filename. now rewrite Hd.
  - intros u f Hf. unfold url_to_filename, md5_hexdigest in Hf.
    destruct (utf8_encode u) as [d|]; [|discriminate].
    apply (inj Some) in Hf. subst f. exists d.
    destruct (digest_shape d) as [Hlen Hbytes].
    destruct (hexlify_shape _ Hbytes) as [Hl Hh].
    pose proof (unhexlify_hexlify _ Hbytes) as Hun.
    rewrite Hlen in Hl.
    set (h := hexlify (MD5.digest d)) in *. clearbody h.
    split; [reflexivity|]. split; [exact Hlen|].
    split; [rewrite length_app, Hl; reflexivity|].
    rewrite (take_app_length' h (lit ".html") 32 (eq_sym Hl)).
    rewrite (drop_app_length' h (lit ".html") 32 (eq_sym Hl)).
    now repeat split.
  - intros u1 u2 d1 d2 f1 f2 Hd1 Hd2 Hf1 Hf2 Hne Hcoll Heq.
    unfold url_to_filename, md5_hexdigest in Hf1, Hf2.
    rewrite Hd1 in Hf1. rewrite Hd2 in Hf2.
    apply (inj Some) in Hf1, Hf2. subst f1 f2.
    apply app_inv_tail in Heq. apply hexlify_inj in Heq.
    apply Hcoll. split; [|exact Heq].
    intros ->. apply Hne. exact (utf8_encode_inj _ _ _ Hd1 Hd2).
  - repeat split; vm_compute; reflexivity.
  - repeat split; vm_compute; reflexivity.
Qed.

(** X1: every name [url_to_filename] returns is 37 characters long: 32
    digits from [0-9a-f] followed by [.html]. *)
Theorem url_to_filename_is_32_hex_digits_and_suffix u f :
  url_to_filename u = Some f ->
  length f = 37%nat /\
  exists h, f = h ++ lit ".html" /\ length h = 32%nat /\ forallb is_lower_hex h = true.
Proof.
  intros Hf. split; [now apply (url_to_filename_no_sep u)|].
  now apply (url_to_filename_parts u).
Qed.

(** X2: [url_to_filename] raises exactly on a URL that holds a surrogate (or
    a value that is no code point); on every other URL, a URL of ASCII
    characters among them, it returns a name. *)
Theorem url_to_filename_fails_only_on_surrogates u :
  url_to_filename u = None <-> forallb is_scalar_value u = false.
Proof.
  pose proof (utf8_encode_scalar u) as Hs.
  unfold url_to_filename.
  destruct (utf8_encode u) as [d|]; destruct (forallb is_scalar_value u);
    split; intros H; try reflexivity; try discriminate.
  - assert (Hf : false = true) by (apply Hs; discriminate). discriminate.
  - exfalso. now apply Hs.
Qed.

Lemma path_join_relative dir f :
  startswith_sep f = false ->
  path_join dir f
  = (if bool_decide (dir = []) || endswith_sep dir then dir else dir ++ lit "/") ++ f.
Proof.
  intros Hf. unfold path_join. rewrite Hf.
  destruct (bool_decide (dir = []) || endswith_sep dir); [reflexivity|].
  now rewrite <- app_assoc.
Qed.

(** X3: the path an artifact is written to is the output directory, a
    separator if the directory does not end in one, and the filename; it is
    never the path of the run marker or of the mapping file, and two
    different filenames never share a path. *)
Theorem artifact_path_is_inside_and_fresh dir u f :
  url_to_filename u = Some f ->
  path_join dir f
  = (if bool_decide (dir = []) || endswith_sep dir then dir else dir ++ lit "/") ++ f /\
  path_join dir f <> path_join dir LAST_RUN_FILE /\
  path_join dir f <> path_join dir MAPPING_FILE /\
  (forall u' f', url_to_filename u' = Some f' ->
                 path_join dir f = path_join dir f' -> f = f').
Proof.
  intros Hf. destruct (url_to_filename_no_sep u f Hf) as [Hsep Hlen].
  rewrite (path_join_relative dir f Hsep).
  rewrite !(path_join_relative dir _ (eq_refl : startswith_sep LAST_RUN_FILE = false)).
  rewrite !(path_join_relative dir _ (eq_refl : startswith_sep MAPPING_FILE = false)).
  split; [reflexivity|]. split; [|split].
  - intros Heq. apply app_inv_head in Heq. subst f. discriminate.
  - intros Heq. apply app_inv_head in Heq. subst f. discriminate.
  - intros u' f' Hf' Heq.
    destruct (url_to_filename_no_sep u' f' Hf') as [Hsep' _].
    rewrite (path_join_relative dir f' Hsep') in Heq.
    now apply app_inv_head in Heq.
Qed.

End NamerShape.

(** ** More on process_entry *)

Section ProcessEntryMore.

Context (E : env).

(** What one pass through the loop body does to the files and the writes. *)
Lemma attempt_effects url a m w :
  let r := attempt E url a m w in
  (count is_write (trace w) <= count is_write (trace (world_of r))
   <= count is_write (trace w) + 1)%nat /\
  count is_write_ok (trace (world_of r))
  = (count is_write_ok (trace w) + if result_of r is Some saved then 1 else 0)%nat /\
  (url_to_filename url = None ->
   count is_write (trace (world_of r)) = count is_write (trace w) /\
   files (world_of r) = files w) /\
  (forall f p, url_to_filename url = Some f -> p <> path_join (output_dir a) f ->
               files (world_of r) !! p = files w !! p) /\
  (result_of r = Some saved ->
   exists f c,
     url_to_filename url = Some f /\
     files (world_of r) !! path_join (output_dir a) f = Some (FBytes c) /\
     last (trace (world_of r))
     = Some (EvWrite (path_join (output_dir a) f) (FBytes c) Written)).
Proof.
  attempt_cases; rewrite ?count_app; unfold count; simpl;
    (split; [lia|]); (split; [lia|]);
    (split; [intros; first [discriminate | split; [lia | reflexivity]]|]);
    (split; [intros f p Hf Hp; try reflexivity;
             injection Hf as <-; now rewrite lookup_insert_ne by congruence|]);
    intros Hs; try discriminate.
  all: eexists; eexists; split; [reflexivity|];
    split; [apply lookup_insert_eq | apply last_snoc].
Qed.

Lemma retry_loop_effects n url a : forall m w,
  let r := retry_loop E n url a m w in
  (count is_write (trace w) <= count is_write (trace (world_of r)))%nat /\
  (count is_write (trace (world_of r)) + count is_get (trace w)
   <= count is_write (trace w) + count is_get (trace (world_of r)))%nat /\
  count is_write_ok (trace (world_of r))
  = (count is_write_ok (trace w) + if result_of r is saved then 1 else 0)%nat /\
  (url_to_filename url = None ->
   count is_write (trace (world_of r)) = count is_write (trace w) /\
   files (world_of r) = files w) /\
  (forall f p, url_to_filename url = Some f -> p <> path_join (output_dir a) f ->
               files (world_of r) !! p = files w !! p) /\
  (result_of r = saved ->
   exists f c,
     url_to_filename url = Some f /\
     files (world_of r) !! path_join (output_dir a) f = Some (FBytes c) /\
     last (trace (world_of r))
     = Some (EvWrite (path_join (output_dir a) f) (FBytes c) Written)).
Proof.
  induction n as [|n IH]; intros m w; simpl.
  - unfold result_of, world_of. simpl.
    repeat split; try lia; try discriminate.
  - pose proof (attempt_effects url a m w) as (Hw & Hok & Hnone & Hframe & Hsaved).
    pose proof (attempt_gets E url a m w) as Hg.
    destruct (attempt E url a m w) as [[[s|] m1] w1];
      unfold result_of, world_of in *; simpl in *.
    + split; [lia|]. split; [lia|]. split; [|split; [exact Hnone|split; [exact Hframe|]]].
      * rewrite Hok. now destruct s.
      * intros ->. now apply Hsaved.
    + destruct (IH m1 (logging (LogFetchError url (Z.of_nat n)) w1))
        as (IHw & IHg & IHok & IHnone & IHframe & IHsaved).
      rewrite !count_logging in *. simpl in *.
      split; [lia|]. split; [lia|]. split; [lia|]. split; [|split].
      * intros Hname. destruct (Hnone Hname) as [H1 H2].
        destruct (IHnone Hname) as [H3 H4]. split; [lia|].
        rewrite H4. exact H2.
      * intros f p Hf Hp. rewrite (IHframe f p Hf Hp). now apply (Hframe f p).
      * exact IHsaved.
Qed.

(** X4: with a budget of zero or less, an entry that is not skipped ends in
    [error] at once: no request, no write, nothing logged. *)
Theorem no_budget_means_error_without_request url lm a m w :
  skip_check E a lm = false ->
  retries a <= 0 ->
  process_entry E url lm a m w = ((url, error), m, w).
Proof.
  intros Hs Hr. rewrite process_entry_fetching by assumption.
  replace (Z.to_nat (retries a)) with 0%nat by lia. reflexivity.
Qed.

(** X5: [process_entry] never sends more requests than the budget, and
    never attempts more writes than it sent requests. *)
Theorem requests_and_writes_are_bounded url lm a m w :
  let r := process_entry E url lm a m w in
  let grown p := Z.of_nat (count p (trace (world_of r))) - Z.of_nat (count p (trace w)) in
  0 <= grown is_write <= grown is_get /\ grown is_get <= Z.max 0 (retries a).
Proof.
  intros r grown. subst r grown.
  destruct (skip_check E a lm) eqn:Hs.
  - unfold process_entry. rewrite Hs. unfold world_of. simpl. lia.
  - rewrite process_entry_fetching by assumption. unfold world_of. simpl.
    pose proof (retry_loop_gets E (Z.to_nat (retries a)) url a m w) as [_ Hg].
    pose proof (retry_loop_effects (Z.to_nat (retries a)) url a m w)
      as (Hw1 & Hw2 & _).
    unfold world_of in *. simpl in *. lia.
Qed.

(** X6: the outcome is [saved] exactly when one write went through during
    the call; when the outcome is [skipped] or [error] no write went
    through. *)
Theorem saved_iff_one_write_went_through url lm a m w :
  let r := process_entry E url lm a m w in
  count is_write_ok (trace (world_of r))
  = (count is_write_ok (trace w) + if status_of r is saved then 1 else 0)%nat.
Proof.
  intros r. subst r.
  destruct (skip_check E a lm) eqn:Hs.
  - unfold process_entry. rewrite Hs. unfold world_of, status_of, result_of. simpl. lia.
  - rewrite process_entry_fetching by assumption.
    unfold world_of, status_of, result_of. simpl.
    now destruct (retry_loop_effects (Z.to_nat (retries a)) url a m w)
      as (_ & _ & Hok & _).
Qed.

(** X7: the only file [process_entry] can change is the artifact of its own
    URL; when the outcome is [saved], that file holds the bytes of the last
    write, which went through. *)
Theorem only_the_artifact_of_the_url_changes url lm a m w :
  let r := process_entry E url lm a m w in
  (forall f p, url_to_filename url = Some f -> p <> path_join (output_dir a) f ->
               files (world_of r) !! p = files w !! p) /\
  (status_of r = saved ->
   exists f c,
     url_to_filename url = Some f /\
     files (world_of r) !! path_join (output_dir a) f = Some (FBytes c) /\
     last (trace (world_of r))
     = Some (EvWrite (path_join (output_dir a) f) (FBytes c) Written)).
Proof.
  intros r. subst r.
  destruct (skip_check E a lm) eqn:Hs.
  - unfold process_entry. rewrite Hs. unfold world_of, status_of, result_of. simpl.
    split; [reflexivity|discriminate].
  - rewrite process_entry_fetching by assumption.
    unfold world_of, status_of, result_of. simpl.
    destruct (retry_loop_effects (Z.to_nat (retries a)) url a m w)
      as (_ & _ & _ & _ & Hframe & Hsaved).
    split; [exact Hframe|exact Hsaved].
Qed.

(** X8: an entry whose URL cannot be encoded is never [saved]: no write is
    attempted for it, no file changes and the mapping stays as it was. *)
Theorem unencodable_url_is_never_saved url lm a m w :
  url_to_filename url = None ->
  let r := process_entry E url lm a m w in
  status_of r <> saved /\
  map_of r = m /\
  files (world_of r) = files w /\
  count is_write (trace (world_of r)) = count is_write (trace w).
Proof.
  intros Hname r. subst r.
  destruct (skip_check E a lm) eqn:Hs.
  - unfold process_entry. rewrite Hs. unfold world_of, status_of, result_of, map_of.
    simpl. repeat split. discriminate.
  - rewrite process_entry_fetching by assumption.
    unfold world_of, status_of, result_of, map_of. simpl.
    destruct (retry_loop_effects (Z.to_nat (retries a)) url a m w)
      as (_ & _ & _ & Hnone & _).
    destruct (retry_loop_map E (Z.to_nat (retries a)) url a m w) as [Hsv Hns].
    destruct (Hnone Hname) as [Hc Hf].
    assert (Hne : result_of (retry_loop E (Z.to_nat (retries a)) url a m w) <> saved).
    { intros Heq. destruct (Hsv Heq) as (f & Hf' & _). congruence. }
    repeat split; [exact Hne | now apply Hns | exact Hf | exact Hc].
Qed.

Lemma retry_loop_recovers url a c f k : forall n m w,
  (k < n)%nat ->
  readability a = false ->
  url_to_filename url = Some f ->
  (forall j, (j < k)%nat -> http_get E (trace w ++ failed_first url n j) url = None) ->
  http_get E (trace w ++ failed_first url n k) url = Some c ->
  disk_write E (trace w ++ failed_first url n k ++ [EvGet url (Some c)])
    (path_join (output_dir a) f) = Written ->
  retry_loop E n url a m w
  = (saved, <[url := f]> m,
     World (trace w ++ failed_first url n k
              ++ [EvGet url (Some c);
                  EvWrite (path_join (output_dir a) f) (FBytes c) Written])
           (<[path_join (output_dir a) f := FBytes c]> (files w))).
Proof.
  induction k as [|k IH]; intros n m w Hk Hr Hname Hfail Hget Hdisk;
    destruct n as [|n]; try lia.
  - simpl in *. rewrite app_nil_r in Hget.
    unfold attempt, fetch_url, write_file, emit. simpl.
    rewrite Hget, Hr, Hname. simpl. rewrite Hdisk. simpl.
    now rewrite <- app_assoc.
  - pose proof (Hfail 0%nat ltac:(lia)) as H0. simpl in H0. rewrite app_nil_r in H0.
    assert (Ha : attempt E url a m w = (None, m, emit (EvGet url None) w))
      by (unfold attempt, fetch_url; now rewrite H0).
    cbn [retry_loop]. rewrite Ha.
    rewrite (IH n m (logging (LogFetchError url (Z.of_nat n)) (emit (EvGet url None) w)));
      unfold logging, emit; simpl; try assumption; try lia.
    + now rewrite <- !app_assoc.
    + intros j Hj. rewrite <- !app_assoc. cbn [app].
      apply (Hfail (Datatypes.S j)). lia.
    + rewrite <- !app_assoc. cbn [app]. exact Hget.
    + rewrite <- !app_assoc. cbn [app]. exact Hdisk.
Qed.

(** X9: a failure that goes away is recovered from.  When the first [k]
    requests of a budget of more than [k] raise and the next one is
    answered, the entry is [saved] after exactly [k + 1] requests and one
    write; the [k] warnings count the attempts left down, and the file holds
    the bytes of the last request. *)
Theorem transient_failure_is_recovered url lm a m w c f k :
  skip_check E a lm = false ->
  (k < Z.to_nat (retries a))%nat ->
  readability a = false ->
  url_to_filename url = Some f ->
  (forall j, (j < k)%nat ->
     http_get E (trace w ++ failed_first url (Z.to_nat (retries a)) j) url = None) ->
  http_get E (trace w ++ failed_first url (Z.to_nat (retries a)) k) url = Some c ->
  disk_write E (trace w ++ failed_first url (Z.to_nat (retries a)) k
                  ++ [EvGet url (Some c)])
    (path_join (output_dir a) f) = Written ->
  process_entry E url lm a m w
  = ((url, saved), <[url := f]> m,
     World (trace w ++ failed_first url (Z.to_nat (retries a)) k
              ++ [EvGet url (Some c);
                  EvWrite (path_join (output_dir a) f) (FBytes c) Written])
           (<[path_join (output_dir a) f := FBytes c]> (files w))) /\
  count is_get (failed_first url (Z.to_nat (retries a)) k) = k.
Proof.
  intros Hs Hk Hr Hname Hfail Hget Hdisk. split.
  - rewrite process_entry_fetching by assumption.
    now rewrite (retry_loop_recovers url a c f k (Z.to_nat (retries a)) m w).
  - clear -Hk. revert Hk. generalize (Z.to_nat (retries a)) as n.
    unfold count. induction k as [|k IH]; intros [|n] Hk; simpl; try lia.
    rewrite IH by lia. reflexivity.
Qed.

(** X10: when the cleanup is requested, available and succeeds, the entry
    is [saved] and the file holds what the transformer returned, not the
    bytes that were fetched. *)
Theorem cleaned_content_is_what_is_saved url lm a m w content cleaned f :
  skip_check E a lm = false ->
  1 <= retries a ->
  readability a = true -> HAVE_READABILITY E = true ->
  http_get E (trace w) url = Some content ->
  readability_summary E content = Some cleaned ->
  url_to_filename url = Some f ->
  disk_write E (trace w ++ [EvGet url (Some content)]) (path_join (output_dir a) f)
  = Written ->
  process_entry E url lm a m w
  = ((url, saved), <[url := f]> m,
     World (trace w ++ [EvGet url (Some content);
                        EvWrite (path_join (output_dir a) f) (FBytes cleaned) Written])
           (<[path_join (output_dir a) f := FBytes cleaned]> (files w))).
Proof.
  intros Hs Hpos Hr Hh Hget Hsum Hname Hdisk.
  rewrite process_entry_fetching by assumption.
  destruct (Z.to_nat (retries a)) as [|n] eqn:Hn; [lia|].
  simpl. unfold attempt, fetch_url, write_file, emit. simpl.
  rewrite Hget, Hr, Hh. simpl. rewrite Hsum, Hname. simpl. rewrite Hdisk. simpl.
  unfold result_of, map_of, world_of. simpl. now rewrite <- app_assoc.
Qed.

Lemma skip_check_with_transformer have summary a lm :
  skip_check (with_transformer have summary E) a lm = skip_check E a lm.
Proof. reflexivity. Qed.

Lemma retry_loop_with_transformer have summary n url a : forall m w,
  readability a = false ->
  retry_loop (with_transformer have summary E) n url a m w = retry_loop E n url a m w.
Proof.
  induction n as [|n IH]; intros m w Hr; simpl; [reflexivity|].
  assert (Ha : attempt (with_transformer have summary E) url a m w = attempt E url a m w).
  { unfold attempt, fetch_url, write_file. simpl. rewrite Hr. reflexivity. }
  rewrite Ha. destruct (attempt E url a m w) as [[[s|] m1] w1]; [reflexivity|].
  now apply IH.
Qed.

(** X11: without [--readability] the transformer plays no part: whether
    Readability is installed and what it would return change nothing in
    what [process_entry] returns, writes or logs. *)
Theorem readability_off_ignores_the_transformer have summary url lm a m w :
  readability a = false ->
  process_entry (with_transformer have summary E) url lm a m w
  = process_entry E url lm a m w.
Proof.
  intros Hr. unfold process_entry.
  rewrite skip_check_with_transformer.
  now rewrite retry_loop_with_transformer.
Qed.

End ProcessEntryMore.

(** ** More on the run *)

Section RunMore.

Context (E : env).

(** How [main] ends before the pool. *)
Lemma main_startup_failed a w :
  run_end_of (main E a w) = StartupFailed ->
  exists r, main E a w = Run StartupFailed [] [] ∅ (World (trace w ++ r) (files w)) /\
            (r = [] \/ exists x, r = [EvGet (sitemap_url a) x]).
Proof.
  unfold main.
  destruct (makedirs_ok E (output_dir a)); simpl.
  2:{ intros _. exists []. rewrite app_nil_r. split; [now destruct w|now left]. }
  destruct (load_last_run (output_dir a) w) as [lrt|].
  2:{ intros _. exists []. rewrite app_nil_r. split; [now destruct w|now left]. }
  unfold fetch_url, emit. simpl.
  destruct (http_get E (trace w) (sitemap_url a)) as [xml|] eqn:Hget.
  2:{ intros _. eexists. split; [reflexivity|]. right. eauto. }
  destruct (sitemap_entries E xml) as [entries|] eqn:Hxml.
  2:{ intros _. eexists. split; [reflexivity|]. right. eauto. }
  destruct (workers a <=? 0).
  { intros _. eexists. split; [reflexivity|]. right. eauto. }
  destruct (run_pool E _ _ _ ∅ _) as [[rs mp] w2].
  unfold save_last_run, write_mapping, write_file, emit. simpl.
  repeat match goal with
         | |- context [match disk_write E ?h ?p with _ => _ end] =>
             destruct (disk_write E h p); simpl
         end; intros Hend; discriminate.
Qed.

(** How [main] ends when it completes. *)
Lemma main_completed a w :
  run_end_of (main E a w) = Completed ->
  exists lrt xml entries,
    load_last_run (output_dir a) w = Some lrt /\
    http_get E (trace w) (sitemap_url a) = Some xml /\
    sitemap_entries E xml = Some entries /\
    let es := apply_limit (limit a) entries in
    let pool := run_pool E (length es) es (with_last_run lrt a) ∅
                  (emit (EvGet (sitemap_url a) (Some xml)) w) in
    let t := time_time E (trace (world_of pool)) in
    let marker := path_join (output_dir a) LAST_RUN_FILE in
    let mapping := path_join (output_dir a) MAPPING_FILE in
    main E a w
    = Run Completed es (result_of pool) (map_of pool)
        (World (trace (world_of pool)
                  ++ [EvTime t; EvWrite marker (FJson (Some t)) Written;
                      EvWrite mapping (FCsv (map_of pool)) Written])
               (<[mapping := FCsv (map_of pool)]>
                  (<[marker := FJson (Some t)]> (files (world_of pool))))).
Proof.
  unfold main.
  destruct (makedirs_ok E (output_dir a)); simpl; [|discriminate].
  destruct (load_last_run (output_dir a) w) as [lrt|]; [|discriminate].
  unfold fetch_url, emit. simpl.
  destruct (http_get E (trace w) (sitemap_url a)) as [xml|] eqn:Hget; [|discriminate].
  destruct (sitemap_entries E xml) as [entries|] eqn:Hxml; [|discriminate].
  destruct (workers a <=? 0); [discriminate|].
  intros Hend. exists lrt, xml, entries.
  repeat (split; [first [assumption | reflexivity]|]).
  cbv zeta. unfold emit. simpl. revert Hend.
  destruct (run_pool E _ _ _ ∅ _) as [[rs mp] w2].
  unfold save_last_run, write_mapping, write_file, emit, result_of, map_of, world_of.
  simpl.
  destruct (disk_write E (trace w2) (path_join (output_dir a) LAST_RUN_FILE)) eqn:Hr1;
    simpl; try discriminate.
  rewrite <- ?app_assoc. simpl.
  destruct (disk_write E
              (trace w2 ++ [EvTime (time_time E (trace w2));
                            EvWrite (path_join (output_dir a) LAST_RUN_FILE)
                              (FJson (Some (time_time E (trace w2)))) Written])
              (path_join (output_dir a) MAPPING_FILE)) eqn:Hr2; simpl;
    try discriminate.
  reflexivity.
Qed.

Lemma process_entry_gets_le url lm a m w :
  (count is_get (trace w)
   <= count is_get (trace (world_of (process_entry E url lm a m w)))
   <= count is_get (trace w) + Z.to_nat (retries a))%nat.
Proof.
  destruct (skip_check E a lm) eqn:Hs.
  - unfold process_entry. rewrite Hs. unfold world_of. simpl. lia.
  - rewrite process_entry_fetching by assumption.
    pose proof (retry_loop_gets E (Z.to_nat (retries a)) url a m w) as Hg.
    unfold world_of in *. simpl in *. lia.
Qed.

Lemma run_pool_gets a n : forall pending m w,
  (count is_get (trace (world_of (run_pool E n pending a m w)))
   <= count is_get (trace w) + n * Z.to_nat (retries a))%nat.
Proof.
  induction n as [|n IH]; intros pending m w; simpl.
  - unfold world_of. simpl. lia.
  - destruct (pending !! (next_task E (trace w) mod length pending)%nat)
      as [[url lm]|] eqn:Hlk.
    2:{ unfold world_of. simpl. lia. }
    pose proof (process_entry_gets_le url lm a m w) as Hg.
    destruct (process_entry E url lm a m w) as [[r m1] w1].
    specialize (IH (delete (next_task E (trace w) mod length pending)%nat pending) m1
                   (logging (LogStatus r.2 r.1) w1)).
    destruct (run_pool E n _ a m1 (logging (LogStatus r.2 r.1) w1)) as [[rs m2] w3].
    rewrite count_logging in IH. unfold world_of in *. simpl in *. lia.
Qed.

Lemma run_pool_not_skipped a n : forall pending m w,
  (forall lm, skip_check E a lm = false) ->
  Forall (fun r => r.2 <> skipped) (result_of (run_pool E n pending a m w)).
Proof.
  induction n as [|n IH]; intros pending m w Hns; simpl.
  - constructor.
  - destruct (pending !! (next_task E (trace w) mod length pending)%nat)
      as [[url lm]|] eqn:Hlk; [|constructor].
    pose proof (retry_loop_not_skipped E (Z.to_nat (retries a)) url a m w) as Hr.
    rewrite (process_entry_fetching E url lm a m w (Hns lm)). cbv zeta.
    specialize (IH (delete (next_task E (trace w) mod length pending)%nat pending)
                   (map_of (retry_loop E (Z.to_nat (retries a)) url a m w))
                   (logging (LogStatus (result_of (retry_loop E (Z.to_nat (retries a)) url a m w)) url)
                      (world_of (retry_loop E (Z.to_nat (retries a)) url a m w))) Hns).
    simpl.
    destruct (run_pool E n _ a _ _) as [[rs m2] w3].
    unfold result_of in *. simpl in *. constructor; assumption.
Qed.

Lemma run_pool_all_skipped a n : forall pending m w,
  (forall u lm, (u, lm) ∈ pending -> skip_check E a lm = true) ->
  let r := run_pool E n pending a m w in
  Forall (fun o => o.2 = skipped) (result_of r) /\
  map_of r = m /\
  files (world_of r) = files w /\
  (forall p, (forall x, p (EvLog x) = false) ->
             count p (trace (world_of r)) = count p (trace w)).
Proof.
  induction n as [|n IH]; intros pending m w Hskip; simpl.
  - unfold result_of, map_of, world_of. simpl. repeat split. constructor.
  - destruct (pending !! (next_task E (trace w) mod length pending)%nat)
      as [[url lm]|] eqn:Hlk.
    2:{ unfold result_of, map_of, world_of. simpl. repeat split. constructor. }
    assert (Hs : skip_check E a lm = true)
      by (apply (Hskip url); now apply list_elem_of_lookup_2 in Hlk).
    unfold process_entry. rewrite Hs.
    destruct (IH (delete (next_task E (trace w) mod length pending)%nat pending) m
                 (logging (LogStatus skipped url) w)) as (IHs & IHm & IHf & IHc).
    { intros u lm' Hin. apply (Hskip u). now apply list_elem_of_delete_inv in Hin. }
    simpl.
    destruct (run_pool E n _ a m (logging (LogStatus skipped url) w)) as [[rs m2] w3].
    unfold result_of, map_of, world_of in *. simpl in *.
    split; [constructor; [reflexivity|assumption]|].
    split; [assumption|]. split; [assumption|].
    intros p Hp. rewrite (IHc p Hp). rewrite count_app. unfold count. simpl.
    rewrite Hp. simpl. lia.
Qed.

(** X12: a run that fails at start-up writes nothing: no file changes,
    nothing is scheduled, the clock is not read, and at most the request
    for the sitemap was sent. *)
Theorem startup_failure_writes_nothing a w :
  run_end_of (main E a w) = StartupFailed ->
  files (final_world (main E a w)) = files w /\
  scheduled (main E a w) = [] /\ outcomes (main E a w) = [] /\
  final_map (main E a w) = ∅ /\
  count is_write (trace (final_world (main E a w))) = count is_write (trace w) /\
  count is_time (trace (final_world (main E a w))) = count is_time (trace w) /\
  (count is_get (trace (final_world (main E a w))) <= count is_get (trace w) + 1)%nat.
Proof.
  intros Hend. destruct (main_startup_failed a w Hend) as (r & -> & Hr). simpl.
  repeat split; rewrite count_app; unfold count;
    destruct Hr as [->|[x ->]]; simpl; lia.
Qed.

(** X26: with a number of workers that is not positive the pool cannot be
    created: the run fails before anything is scheduled, with no outcome,
    no write, no reading of the clock and no change to any file, so no run
    marker is left behind. *)
Theorem no_worker_means_nothing_is_scheduled a w :
  workers a <= 0 ->
  run_end_of (main E a w) = StartupFailed /\
  scheduled (main E a w) = [] /\ outcomes (main E a w) = [] /\
  final_map (main E a w) = ∅ /\
  files (final_world (main E a w)) = files w /\
  count is_write (trace (final_world (main E a w))) = count is_write (trace w) /\
  count is_time (trace (final_world (main E a w))) = count is_time (trace w).
Proof.
  intros Hw.
  destruct (main_cases E a w) as [(Hf & _)|(lrt & xml & entries & _ & _ & _ & Hrun)].
  2:{ cbv zeta in Hrun. destruct Hrun as (_ & _ & _ & _ & _ & _ & _ & Hpos). lia. }
  destruct (main_startup_failed a w Hf) as (r & -> & Hr). simpl.
  repeat split; rewrite count_app; unfold count;
    destruct Hr as [->|[x ->]]; simpl; lia.
Qed.

(** X13: a run marker file that does not hold the JSON object stops every
    run at start-up, before any request and without touching a file,
    [--force] or not. *)
Theorem unreadable_marker_stops_the_run a w d :
  files w !! path_join (output_dir a) LAST_RUN_FILE = Some d ->
  (forall t, d <> FJson t) ->
  main E a w = Run StartupFailed [] [] ∅ w.
Proof.
  intros Hfile Hd.
  assert (Hload : load_last_run (output_dir a) w = None).
  { unfold load_last_run. rewrite Hfile. destruct d as [b|t|rows]; try reflexivity.
    now contradiction (Hd t). }
  unfold main. rewrite Hload.
  now destruct (makedirs_ok E (output_dir a)).
Qed.

(** X14: nothing is skipped in a forced run, nor in a run that finds no
    previous run time (no marker, a marker without the key, or a time of
    zero). *)
Theorem first_or_forced_run_skips_nothing a w :
  force a = true \/
  (exists lrt, load_last_run (output_dir a) w = Some lrt /\ truthy_float lrt = false) ->
  Forall (fun o => o.2 <> skipped) (outcomes (main E a w)).
Proof.
  intros Hcase.
  destruct (main_cases E a w) as [(_ & _ & -> & _)|(lrt & xml & entries & Hload & _ & _ & Hrun)];
    [constructor|].
  cbv zeta in Hrun. destruct Hrun as (_ & -> & _).
  apply run_pool_not_skipped. intros lm. unfold skip_check. simpl.
  destruct Hcase as [->|(lrt' & Hload' & Hfalse)]; [reflexivity|].
  rewrite Hload in Hload'. injection Hload' as <-.
  rewrite Hfalse. now rewrite andb_false_r.
Qed.

Lemma marker_round_trip a w :
  run_end_of (main E a w) = Completed ->
  exists before t,
    trace (final_world (main E a w))
    = before ++ [EvTime t;
                 EvWrite (path_join (output_dir a) LAST_RUN_FILE) (FJson (Some t)) Written;
                 EvWrite (path_join (output_dir a) MAPPING_FILE)
                   (FCsv (final_map (main E a w))) Written] /\
    t = time_time E before /\
    load_last_run (output_dir a) (final_world (main E a w)) = Some (Some t).
Proof.
  intros Hend.
  destruct (main_completed a w Hend) as (lrt & xml & entries & _ & _ & _ & Hmain).
  cbv zeta in Hmain. rewrite Hmain. simpl.
  eexists. eexists. split; [reflexivity|]. split; [reflexivity|].
  unfold load_last_run. simpl.
  rewrite lookup_insert_ne by (apply not_eq_sym, marker_is_not_mapping).
  now rewrite lookup_insert_eq.
Qed.

Lemma nothing_new_is_all_skipped a w t :
  force a = false ->
  load_last_run (output_dir a) w = Some (Some t) ->
  ~ (t == 0)%Q ->
  mktime_strptime E [] = None ->
  run_end_of (main E a w) <> StartupFailed ->
  (forall u lm, (u, lm) ∈ scheduled (main E a w) ->
     exists s ts, lm = Some s /\ mktime_strptime E s = Some ts /\ (ts <= t)%Q) ->
  Forall (fun o => o.2 = skipped) (outcomes (main E a w)) /\
  final_map (main E a w) = ∅ /\
  count is_get (trace (final_world (main E a w))) = Datatypes.S (count is_get (trace w)) /\
  (count is_write (trace (final_world (main E a w))) <= count is_write (trace w) + 2)%nat /\
  (run_end_of (main E a w) = Completed ->
   files (final_world (main E a w)) !! path_join (output_dir a) MAPPING_FILE
   = Some (FCsv ∅)).
Proof.
  intros Hforce Hload Hnz Hempty Hstart Hold.
  destruct (main_cases E a w) as [(Hf & _)|(lrt & xml & entries & Hload' & _ & _ & Hrun)];
    [contradiction|].
  rewrite Hload in Hload'. injection Hload' as <-.
  cbv zeta in Hrun.
  destruct Hrun as (Hsched & Hout & Hmap & _ & _ & Htrace & Hfiles).
  rewrite Hsched in Hold.
  destruct (run_pool_all_skipped (with_last_run (Some t) a)
              (length (apply_limit (limit a) entries)) (apply_limit (limit a) entries)
              ∅ (emit (EvGet (sitemap_url a) (Some xml)) w)) as (Hs & Hm & Hf & Hc).
  { intros u lm Hin. destruct (Hold u lm Hin) as (s & ts & -> & Hp & Hle).
    apply skip_check_iff; [exact Hempty|]. split; [exact Hforce|].
    exists t, s, ts. now repeat split. }
  rewrite Hout, Hmap, Hm. split; [exact Hs|]. split; [reflexivity|].
  split; [|split].
  - rewrite Htrace, count_app, (Hc is_get) by reflexivity.
    unfold emit. simpl. rewrite count_app. unfold count. simpl.
    destruct (disk_write E _ (path_join (output_dir a) LAST_RUN_FILE)); simpl; lia.
  - rewrite Htrace, count_app, (Hc is_write) by reflexivity.
    unfold emit. simpl. rewrite count_app. unfold count. simpl.
    destruct (disk_write E _ (path_join (output_dir a) LAST_RUN_FILE)); simpl; lia.
  - intros Hend.
    destruct (main_completed a w Hend) as (lrt & xml' & entries' & _ & _ & _ & Hmain).
    cbv zeta in Hmain. rewrite Hmain in Hmap |- *. simpl in *.
    rewrite lookup_insert_eq. now rewrite Hmap, Hm.
Qed.

(** X15: the marker a completed run leaves behind is what the next run
    loads: [load_last_run] on the final state returns the one reading of
    the clock the run took, after the pool. *)
Theorem completed_run_marker_round_trip a w :
  run_end_of (main E a w) = Completed ->
  exists before t,
    trace (final_world (main E a w))
    = before ++ [EvTime t;
                 EvWrite (path_join (output_dir a) LAST_RUN_FILE) (FJson (Some t)) Written;
                 EvWrite (path_join (output_dir a) MAPPING_FILE)
                   (FCsv (final_map (main E a w))) Written] /\
    t = time_time E before /\
    load_last_run (output_dir a) (final_world (main E a w)) = Some (Some t).
Proof. exact (marker_round_trip a w). Qed.

(** X16: in an unforced run whose previous run time is not zero and not
    older than the time stamp of any scheduled entry, every outcome is
    [skipped]: the sitemap request is the only request, no artifact is
    written, the mapping ends empty, and a completed run leaves a mapping
    file without rows, whatever it held before. *)
Theorem run_with_nothing_new_skips_everything a w t :
  force a = false ->
  load_last_run (output_dir a) w = Some (Some t) ->
  ~ (t == 0)%Q ->
  mktime_strptime E [] = None ->
  run_end_of (main E a w) <> StartupFailed ->
  (forall u lm, (u, lm) ∈ scheduled (main E a w) ->
     exists s ts, lm = Some s /\ mktime_strptime E s = Some ts /\ (ts <= t)%Q) ->
  Forall (fun o => o.2 = skipped) (outcomes (main E a w)) /\
  final_map (main E a w) = ∅ /\
  count is_get (trace (final_world (main E a w))) = Datatypes.S (count is_get (trace w)) /\
  (count is_write (trace (final_world (main E a w))) <= count is_write (trace w) + 2)%nat /\
  (run_end_of (main E a w) = Completed ->
   files (final_world (main E a w)) !! path_join (output_dir a) MAPPING_FILE
   = Some (FCsv ∅)).
Proof. exact (nothing_new_is_all_skipped a w t). Qed.

(** X23: a second unforced run right after a completed one loads the time
    the first run read; when that time is not zero and no scheduled entry
    is stamped later, the second run skips every entry and sends no request
    but the one for the sitemap. *)
Theorem second_run_skips_what_the_first_covered a w :
  force a = false ->
  mktime_strptime E [] = None ->
  run_end_of (main E a w) = Completed ->
  run_end_of (main E a (final_world (main E a w))) <> StartupFailed ->
  exists t,
    load_last_run (output_dir a) (final_world (main E a w)) = Some (Some t) /\
    (~ (t == 0)%Q ->
     (forall u lm, (u, lm) ∈ scheduled (main E a (final_world (main E a w))) ->
        exists s ts, lm = Some s /\ mktime_strptime E s = Some ts /\ (ts <= t)%Q) ->
     Forall (fun o => o.2 = skipped) (outcomes (main E a (final_world (main E a w)))) /\
     final_map (main E a (final_world (main E a w))) = ∅ /\
     count is_get (trace (final_world (main E a (final_world (main E a w)))))
     = Datatypes.S (count is_get (trace (final_world (main E a w))))).
Proof.
  intros Hforce Hempty Hend Hstart.
  destruct (marker_round_trip a w Hend) as (before & t & _ & _ & Hload).
  exists t. split; [exact Hload|]. intros Hnz Hold.
  destruct (nothing_new_is_all_skipped a (final_world (main E a w)) t
              Hforce Hload Hnz Hempty Hstart Hold) as (H1 & H2 & H3 & _).
  now repeat split.
Qed.

(** X17: whatever the limit, the scheduled entries are a prefix of the
    parsed catalog, in parse order; a negative limit [-k] drops the last
    [k] entries (all of them when the catalog has no more than [k]). *)
Theorem limit_always_keeps_a_prefix a w xml entries :
  run_end_of (main E a w) <> StartupFailed ->
  http_get E (trace w) (sitemap_url a) = Some xml ->
  sitemap_entries E xml = Some entries ->
  (exists dropped, entries = scheduled (main E a w) ++ dropped) /\
  (forall k, limit a = Some k -> k < 0 ->
     scheduled (main E a w) = firstn (Z.to_nat (Z.of_nat (length entries) + k)) entries /\
     Z.of_nat (length (scheduled (main E a w)))
     = Z.max 0 (Z.of_nat (length entries) + k)).
Proof.
  intros Hstart Hget Hxml.
  destruct (main_cases E a w) as [(Hf & _)|(lrt & xml' & entries' & _ & Hget' & Hxml' & Hrun)];
    [contradiction|].
  rewrite Hget in Hget'. injection Hget' as <-.
  rewrite Hxml in Hxml'. injection Hxml' as <-.
  cbv zeta in Hrun. destruct Hrun as (-> & _).
  split.
  - unfold apply_limit, slice_to.
    destruct (limit a) as [k|]; [|exists []; now rewrite app_nil_r].
    destruct (k =? 0); [exists []; now rewrite app_nil_r|].
    destruct (k <? 0); eexists; symmetry; apply firstn_skipn.
  - intros k -> Hk. unfold apply_limit, slice_to.
    destruct (Z.eqb_spec k 0) as [->|_]; [lia|].
    destruct (Z.ltb_spec k 0) as [_|]; [|lia].
    split; [reflexivity|]. rewrite length_firstn. lia.
Qed.

(** X18: a run sends at most one request for the sitemap and, for every
    scheduled entry, as many requests as the budget allows. *)
Theorem requests_of_a_run_are_bounded a w :
  (count is_get (trace (final_world (main E a w)))
   <= count is_get (trace w) + 1
      + length (scheduled (main E a w)) * Z.to_nat (retries a))%nat.
Proof.
  destruct (main_cases E a w) as [(Hf & _)|(lrt & xml & entries & _ & _ & _ & Hrun)].
  - destruct (main_startup_failed a w Hf) as (r & -> & Hr). simpl.
    rewrite count_app. unfold count. destruct Hr as [->|[x ->]]; simpl; lia.
  - cbv zeta in Hrun. destruct Hrun as (-> & _ & _ & _ & _ & -> & _).
    pose proof (run_pool_gets (with_last_run lrt a)
                  (length (apply_limit (limit a) entries)) (apply_limit (limit a) entries)
                  ∅ (emit (EvGet (sitemap_url a) (Some xml)) w)) as Hg.
    unfold emit in *. simpl in *. rewrite !count_app in *.
    unfold count in *. simpl in *.
    destruct (disk_write E _ (path_join (output_dir a) LAST_RUN_FILE)); simpl; lia.
Qed.

Lemma artifact_path_not_reserved dir u f :
  url_to_filename u = Some f ->
  path_join dir f <> path_join dir LAST_RUN_FILE /\
  path_join dir f <> path_join dir MAPPING_FILE.
Proof.
  intros Hf. destruct (url_to_filename_no_sep u f Hf) as [Hsep Hlen].
  rewrite (path_join_relative dir f Hsep).
  rewrite !(path_join_relative dir _ (eq_refl : startswith_sep LAST_RUN_FILE = false)).
  rewrite !(path_join_relative dir _ (eq_refl : startswith_sep MAPPING_FILE = false)).
  split; intros Heq; apply app_inv_head in Heq; subst f; discriminate.
Qed.

Lemma artifact_path_inj dir u f u' f' :
  url_to_filename u = Some f -> url_to_filename u' = Some f' ->
  path_join dir f = path_join dir f' -> f = f'.
Proof.
  intros Hf Hf' Heq.
  destruct (url_to_filename_no_sep u f Hf) as [Hsep _].
  destruct (url_to_filename_no_sep u' f' Hf') as [Hsep' _].
  rewrite (path_join_relative dir f Hsep), (path_join_relative dir f' Hsep') in Heq.
  now apply app_inv_head in Heq.
Qed.

Lemma process_entry_files url lm a m w :
  let r := process_entry E url lm a m w in
  (url_to_filename url = None -> files (world_of r) = files w) /\
  (forall f p, url_to_filename url = Some f -> p <> path_join (output_dir a) f ->
               files (world_of r) !! p = files w !! p) /\
  (status_of r = saved ->
   exists f c, url_to_filename url = Some f /\
               files (world_of r) !! path_join (output_dir a) f = Some (FBytes c)).
Proof.
  intros r. subst r.
  destruct (skip_check E a lm) eqn:Hs.
  - unfold process_entry. rewrite Hs. unfold world_of, status_of, result_of. simpl.
    repeat split. discriminate.
  - rewrite process_entry_fetching by assumption.
    unfold world_of, status_of, result_of. simpl.
    destruct (retry_loop_effects E (Z.to_nat (retries a)) url a m w)
      as (_ & _ & _ & Hnone & Hframe & Hsaved).
    split; [apply Hnone|]. split; [exact Hframe|].
    intros Hsv. destruct (Hsaved Hsv) as (f & c & Hf & Hlk & _). eauto.
Qed.

Lemma run_pool_artifacts a n : forall pending m w,
  NoDup (map fst pending) ->
  (forall u u' f, u ∈ map fst pending -> u' ∈ map fst pending ->
     url_to_filename u = Some f -> url_to_filename u' = Some f -> u = u') ->
  let r := run_pool E n pending a m w in
  (forall u, (u, saved) ∈ result_of r ->
     exists f c, url_to_filename u = Some f /\
                 files (world_of r) !! path_join (output_dir a) f = Some (FBytes c)) /\
  (forall p,
     (forall u f, u ∈ map fst pending -> url_to_filename u = Some f ->
                  p <> path_join (output_dir a) f) ->
     files (world_of r) !! p = files w !! p).
Proof.
  induction n as [|n IH]; intros pending m w Hnd Hinj; simpl.
  - unfold result_of, world_of. simpl. split; [|reflexivity].
    intros u Hin. now apply elem_of_nil in Hin.
  - destruct (pending !! (next_task E (trace w) mod length pending)%nat)
      as [[url lm]|] eqn:Hlk.
    2:{ unfold result_of, world_of. simpl. split; [|reflexivity].
        intros u Hin. now apply elem_of_nil in Hin. }
    set (i := (next_task E (trace w) mod length pending)%nat) in *.
    assert (Hperm : map fst pending ≡ₚ url :: map fst (delete i pending)).
    { change (url :: map fst (delete i pending))
        with (map fst ((url, lm) :: delete i pending)).
      apply Permutation_map. now apply delete_Permutation. }
    assert (Hnd' : NoDup (url :: map fst (delete i pending)))
      by (now rewrite <- Hperm).
    apply NoDup_cons in Hnd' as [Hfresh Hnd'].
    assert (Hsub : forall u, u ∈ map fst (delete i pending) -> u ∈ map fst pending)
      by (intros u Hu; rewrite Hperm; now right).
    assert (Hurl : url ∈ map fst pending) by (rewrite Hperm; now left).
    pose proof (process_entry_url E url lm a m w) as Hu.
    pose proof (process_entry_files url lm a m w) as (Hnone & Hframe & Hsaved).
    destruct (process_entry E url lm a m w) as [[[u1 s1] m1] w1].
    unfold status_of, result_of, world_of in Hu, Hnone, Hframe, Hsaved.
    simpl in Hu, Hnone, Hframe, Hsaved. subst u1.
    destruct (IH (delete i pending) m1 (logging (LogStatus s1 url) w1) Hnd')
      as [IHsaved IHframe].
    { intros u u' f Hin Hin'. apply Hinj; now apply Hsub. }
    simpl.
    destruct (run_pool E n (delete i pending) a m1 (logging (LogStatus s1 url) w1))
      as [[rs m2] w3].
    unfold result_of, world_of in *. simpl in *. split.
    + intros u Hin. apply elem_of_cons in Hin as [[= -> <-]|Hin]; [|now apply IHsaved].
      destruct (Hsaved eq_refl) as (f & c & Hf & Hfile).
      exists f, c. split; [exact Hf|].
      rewrite IHframe; [exact Hfile|].
      intros u' f' Hin' Hf' Heq.
      assert (f = f') by (now apply (artifact_path_inj (output_dir a) url f u' f')).
      subst f'. apply Hfresh.
      rewrite (Hinj url u' f Hurl (Hsub u' Hin') Hf Hf'). exact Hin'.
    + intros p Hp. rewrite IHframe by (intros u f Hin; apply Hp; now apply Hsub).
      destruct (url_to_filename url) as [f|] eqn:Hf.
      * apply (Hframe f p eq_refl). now apply (Hp url).
      * now rewrite Hnone.
Qed.

(** X19: when the scheduled URLs are pairwise different and no two of
    them share a filename, a completed run leaves, for every URL in the
    final mapping, the artifact under its filename in the output
    directory. *)
Theorem mapped_urls_have_their_artifact a w :
  run_end_of (main E a w) = Completed ->
  NoDup (map fst (scheduled (main E a w))) ->
  (forall u u' f, u ∈ map fst (scheduled (main E a w)) ->
     u' ∈ map fst (scheduled (main E a w)) ->
     url_to_filename u = Some f -> url_to_filename u' = Some f -> u = u') ->
  forall u f, final_map (main E a w) !! u = Some f ->
    url_to_filename u = Some f /\
    exists c, files (final_world (main E a w)) !! path_join (output_dir a) f
              = Some (FBytes c).
Proof.
  intros Hend Hnd Hinj u f Hlk.
  destruct (main_completed a w Hend) as (lrt & xml & entries & _ & _ & _ & Hmain).
  cbv zeta in Hmain. rewrite Hmain in Hnd, Hinj, Hlk |- *. simpl in *.
  set (es := apply_limit (limit a) entries) in *.
  set (w1 := emit (EvGet (sitemap_url a) (Some xml)) w) in *.
  destruct (run_pool_map E (with_last_run lrt a) (length es) es ∅ w1 u) as [Hin Hout].
  destruct (decide ((u, saved) ∈ result_of (run_pool E (length es) es (with_last_run lrt a) ∅ w1)))
    as [Hsv|Hns].
  2:{ rewrite (Hout Hns), lookup_empty in Hlk. discriminate. }
  destruct (Hin Hsv) as (f' & Hf' & Hlk'). rewrite Hlk' in Hlk. injection Hlk as ->.
  split; [exact Hf'|].
  destruct (run_pool_artifacts (with_last_run lrt a) (length es) es ∅ w1 Hnd Hinj)
    as [Hart _].
  destruct (Hart u Hsv) as (f2 & c & Hf2 & Hfile).
  rewrite Hf' in Hf2. injection Hf2 as <-.
  exists c.
  destruct (artifact_path_not_reserved (output_dir a) u f Hf') as [Hm1 Hm2].
  rewrite lookup_insert_ne by (apply not_eq_sym; exact Hm2).
  rewrite lookup_insert_ne by (apply not_eq_sym; exact Hm1).
  exact Hfile.
Qed.

End RunMore.

(** ** parse_sitemap *)

Section ParseSitemap.

Lemma lstrip_head s c t : lstrip s = c :: t -> isspace c = false.
Proof.
  induction s as [|x s IH]; simpl; [discriminate|].
  destruct (isspace x) eqn:Hx; [exact IH|].
  intros [= <- _]. exact Hx.
Qed.

Lemma lstrip_suffix s : exists pre, s = pre ++ lstrip s.
Proof.
  induction s as [|x s [pre IH]]; simpl; [now exists []|].
  destruct (isspace x).
  - exists (x :: pre). simpl. now f_equal.
  - now exists [].
Qed.

Lemma rstrip_prefix s : exists suf, s = rstrip s ++ suf.
Proof.
  unfold rstrip. destruct (lstrip_suffix (rev s)) as [pre Hpre].
  exists (rev pre). rewrite <- rev_app_distr, <- Hpre. now rewrite rev_involutive.
Qed.

Lemma last_rev_head {A} (l : list A) : last (rev l) = head l.
Proof.
  destruct l as [|x l]; [reflexivity|]. simpl. apply last_snoc.
Qed.

Lemma strip_trimmed s : trimmed (strip s).
Proof.
  unfold trimmed, strip. split.
  - intros c t Hs.
    destruct (rstrip_prefix (lstrip s)) as [suf Hsuf].
    rewrite Hs in Hsuf. simpl in Hsuf. now apply (lstrip_head s c (t ++ suf)).
  - intros c Hlast. unfold rstrip in Hlast. rewrite last_rev_head in Hlast.
    destruct (lstrip (rev (lstrip s))) as [|x t] eqn:Hl; [discriminate|].
    injection Hlast as ->. now apply (lstrip_head _ _ _ Hl).
Qed.

Lemma entry_of_raises e :
  entry_of e = None <->
  has_loc_text e = true /\
  exists lm, find_child e "lastmod" = Some lm /\ text_of lm = None.
Proof.
  unfold entry_of, has_loc_text.
  destruct (find_child e "loc") as [[tg [[|c t]|] cs]|]; simpl;
    try (split; [discriminate | intros [Hf _]; discriminate]).
  destruct (find_child e "lastmod") as [lm|].
  - destruct (text_of lm) eqn:Ht.
    + split; [discriminate|]. intros (_ & lm' & [= <-] & Hn). congruence.
    + split; [|reflexivity]. intros _. split; [reflexivity|]. eauto.
  - split; [discriminate|]. intros (_ & lm' & Hlm & _). discriminate.
Qed.

Lemma entry_of_trimmed e u lm :
  entry_of e = Some (Some (u, lm)) ->
  has_loc_text e = true /\ trimmed u /\
  (forall x, lm = Some x -> trimmed x) /\
  (lm = None <-> find_child e "lastmod" = None).
Proof.
  unfold entry_of, has_loc_text.
  destruct (find_child e "loc") as [[tg [[|c t]|] cs]|]; simpl; try discriminate.
  destruct (find_child e "lastmod") as [l|].
  - destruct (text_of l); [|discriminate].
    intros [= <- <-]. split; [reflexivity|]. split; [apply strip_trimmed|].
    split; [intros x [= <-]; apply strip_trimmed|].
    split; discriminate.
  - intros [= <- <-]. split; [reflexivity|]. split; [apply strip_trimmed|].
    split; [discriminate|]. split; reflexivity.
Qed.

Lemma collect_entries_raises elems :
  collect_entries elems = None <-> exists e, e ∈ elems /\ entry_of e = None.
Proof.
  induction elems as [|e rest IH]; simpl.
  - split; [discriminate|]. intros (e & Hin & _). now apply elem_of_nil in Hin.
  - destruct (entry_of e) as [o|] eqn:He.
    + destruct (collect_entries rest) as [l|].
      * split; [discriminate|]. intros (e' & Hin & He').
        apply elem_of_cons in Hin as [->|Hin]; [congruence|].
        destruct IH as [_ IH]. discriminate IH. eauto.
      * split; [|reflexivity]. intros _.
        destruct IH as [IH _]. destruct (IH eq_refl) as (e' & Hin & He').
        exists e'. split; [now right|exact He'].
    + split; [|reflexivity]. intros _. exists e. split; [now left|exact He].
Qed.

Lemma collect_entries_from elems entries :
  collect_entries elems = Some entries ->
  (length entries <= length elems)%nat /\
  forall x, x ∈ entries -> exists e, e ∈ elems /\ entry_of e = Some (Some x).
Proof.
  revert entries. induction elems as [|e rest IH]; simpl; intros entries.
  - intros [= <-]. split; [reflexivity|]. intros x Hin. now apply elem_of_nil in Hin.
  - destruct (entry_of e) as [o|] eqn:He; [|discriminate].
    destruct (collect_entries rest) as [l|]; [|discriminate].
    destruct (IH l eq_refl) as [Hlen Hall].
    intros [= <-]. destruct o as [x0|]; simpl.
    + split; [lia|]. intros x Hin. apply elem_of_cons in Hin as [->|Hin].
      * exists e. split; [now left|exact He].
      * destruct (Hall x Hin) as (e' & Hin' & He'). exists e'. split; [now right|exact He'].
    + split; [lia|]. intros x Hin.
      destruct (Hall x Hin) as (e' & Hin' & He'). exists e'. split; [now right|exact He'].
Qed.

(** X20: [parse_sitemap] raises exactly when the XML is malformed or some
    [url] element that has a [loc] with text also has a [lastmod] element
    without text. *)
Theorem parse_sitemap_raises_iff fromstring xml_data :
  parse_sitemap fromstring xml_data = None <->
  fromstring xml_data = None \/
  exists root e lm,
    fromstring xml_data = Some root /\ e ∈ findall_url root /\
    has_loc_text e = true /\
    find_child e "lastmod" = Some lm /\ text_of lm = None.
Proof.
  unfold parse_sitemap. destruct (fromstring xml_data) as [root|].
  - rewrite collect_entries_raises. split.
    + intros (e & Hin & He). right. apply entry_of_raises in He as (Hloc & lm & Hlm & Ht).
      exists root, e, lm. now repeat split.
    + intros [Hn|(root' & e & lm & [= <-] & Hin & Hloc & Hlm & Ht)]; [discriminate|].
      exists e. split; [exact Hin|]. apply entry_of_raises. eauto.
  - split; [now left|reflexivity].
Qed.

(** X21: the catalog [parse_sitemap] returns has at most one entry for
    each [url] element, each entry comes from a [url] element that has a
    [loc] with text, no URL and no time stamp in it starts or ends with
    white space, and the time stamp is missing exactly when the element
    has no [lastmod] child. *)
Theorem parse_sitemap_entries_are_trimmed fromstring xml_data root entries :
  fromstring xml_data = Some root ->
  parse_sitemap fromstring xml_data = Some entries ->
  (length entries <= length (findall_url root))%nat /\
  forall u lm, (u, lm) ∈ entries ->
    trimmed u /\ (forall x, lm = Some x -> trimmed x) /\
    exists e, e ∈ findall_url root /\ has_loc_text e = true /\
              (lm = None <-> find_child e "lastmod" = None).
Proof.
  unfold parse_sitemap. intros -> Hc.
  destruct (collect_entries_from _ _ Hc) as [Hlen Hall].
  split; [exact Hlen|]. intros u lm Hin.
  destruct (Hall _ Hin) as (e & He & Hentry).
  destruct (entry_of_trimmed e u lm Hentry) as (Hloc & Hu & Hlm & Hnone).
  split; [exact Hu|]. split; [exact Hlm|]. eauto.
Qed.

(** X22: when [main] parses the sitemap with [parse_sitemap], one [url]
    element with an empty [lastmod] element stops the whole run at start-up:
    no entry is processed and no file is written. *)
Theorem empty_lastmod_stops_the_run (E : env) fromstring a w xml root e lm :
  (forall x, sitemap_entries E x = parse_sitemap fromstring x) ->
  http_get E (trace w) (sitemap_url a) = Some xml ->
  fromstring xml = Some root ->
  e ∈ findall_url root ->
  has_loc_text e = true ->
  find_child e "lastmod" = Some lm -> text_of lm = None ->
  run_end_of (main E a w) = StartupFailed /\
  outcomes (main E a w) = [] /\
  files (final_world (main E a w)) = files w.
Proof.
  intros Hparse Hget Hroot Hin Hloc Hlm Htext.
  assert (Hnone : sitemap_entries E xml = None).
  { rewrite Hparse. unfold parse_sitemap. rewrite Hroot.
    apply collect_entries_raises. exists e. split; [exact Hin|].
    apply entry_of_raises. eauto. }
  unfold main.
  destruct (makedirs_ok E (output_dir a)); simpl; [|now repeat split].
  destruct (load_last_run (output_dir a) w); [|now repeat split].
  unfold fetch_url. simpl. rewrite Hget, Hnone. now repeat split.
Qed.

End ParseSitemap.

(** ** Warnings and status lines *)

Section Reporting.

Context (E : env).

Lemma attempt_reports url a m w :
  let r := attempt E url a m w in
  count is_retry_log (trace (world_of r)) = count is_retry_log (trace w) /\
  count is_status_log (trace (world_of r)) = count is_status_log (trace w).
Proof.
  attempt_cases; rewrite ?count_app; unfold count; simpl; lia.
Qed.

Lemma retry_loop_reports n url a : forall m w,
  let r := retry_loop E n url a m w in
  let grown p := (count p (trace (world_of r)) - count p (trace w))%nat in
  (count is_retry_log (trace w) <= count is_retry_log (trace (world_of r)))%nat /\
  (count is_get (trace w) <= count is_get (trace (world_of r)))%nat /\
  (grown is_retry_log <= grown is_get <= grown is_retry_log + 1)%nat /\
  (result_of r = saved -> grown is_get = grown is_retry_log + 1)%nat /\
  (grown is_retry_log <= n)%nat /\
  (grown is_retry_log = n -> result_of r = error) /\
  count is_status_log (trace (world_of r)) = count is_status_log (trace w).
Proof.
  induction n as [|n IH]; intros m w; simpl.
  - unfold result_of, world_of. simpl. repeat split; try lia. discriminate.
  - pose proof (attempt_reports url a m w) as [Hl Hst].
    pose proof (attempt_gets E url a m w) as Hg.
    destruct (attempt E url a m w) as [[[s|] m1] w1];
      unfold result_of, world_of in *; simpl in *.
    + repeat split; try lia. 
    + destruct (IH m1 (logging (LogFetchError url (Z.of_nat n)) w1))
        as (I1 & I2 & I3 & I4 & I5 & I6 & I7).
      rewrite !count_logging in *. simpl in *.
      repeat split; try lia.
      * intros Hs. specialize (I4 Hs). lia.
      * intros Hn. apply I6. lia.
Qed.

(** X24: every request of [process_entry] but possibly the last is
    followed by the warning of a used-up attempt: the warnings are as many
    as the requests or one fewer, one fewer when the outcome is [saved], and
    never more than the budget; when they are as many as a budget of at
    least one, the outcome is [error]. *)
Theorem requests_and_warnings_go_together url lm a m w :
  let r := process_entry E url lm a m w in
  let grown p := Z.of_nat (count p (trace (world_of r))) - Z.of_nat (count p (trace w)) in
  0 <= grown is_retry_log <= grown is_get /\
  grown is_get <= grown is_retry_log + 1 /\
  (status_of r = saved -> grown is_get = grown is_retry_log + 1) /\
  grown is_retry_log <= Z.max 0 (retries a) /\
  (1 <= retries a -> grown is_retry_log = retries a -> status_of r = error).
Proof.
  intros r grown. subst r grown.
  destruct (skip_check E a lm) eqn:Hs.
  - unfold process_entry. rewrite Hs. unfold world_of, status_of, result_of. simpl.
    repeat split; try lia. discriminate.
  - rewrite process_entry_fetching by assumption.
    unfold world_of, status_of, result_of. simpl.
    destruct (retry_loop_reports (Z.to_nat (retries a)) url a m w)
      as (I1 & I2 & I3 & I4 & I5 & I6 & _).
    unfold world_of, result_of in *. simpl in *.
    repeat split; try lia.
    + intros Hsv. specialize (I4 Hsv). lia.
    + intros Hpos Hn. apply I6. lia.
Qed.

Lemma process_entry_status_logs url lm a m w :
  count is_status_log (trace (world_of (process_entry E url lm a m w)))
  = count is_status_log (trace w).
Proof.
  destruct (skip_check E a lm) eqn:Hs.
  - unfold process_entry. now rewrite Hs.
  - rewrite process_entry_fetching by assumption.
    now destruct (retry_loop_reports (Z.to_nat (retries a)) url a m w)
      as (_ & _ & _ & _ & _ & _ & Hst).
Qed.

Lemma run_pool_status_logs a n : forall pending m w,
  n = length pending ->
  count is_status_log (trace (world_of (run_pool E n pending a m w)))
  = (count is_status_log (trace w) + n)%nat.
Proof.
  induction n as [|n IH]; intros pending m w Hlen; simpl.
  - unfold world_of. simpl. lia.
  - set (i := (next_task E (trace w) mod length pending)%nat).
    assert (Hi : (i < length pending)%nat)
      by (subst i; apply Nat.mod_upper_bound; lia).
    destruct (lookup_lt_is_Some_2 pending i Hi) as [[url lm] Hlk].
    rewrite Hlk.
    pose proof (process_entry_status_logs url lm a m w) as Hst.
    destruct (process_entry E url lm a m w) as [[r m1] w1].
    specialize (IH (delete i pending) m1 (logging (LogStatus r.2 r.1) w1)).
    destruct (run_pool E n (delete i pending) a m1 (logging (LogStatus r.2 r.1) w1))
      as [[rs m2] w3].
    unfold world_of in *. simpl in *.
    rewrite IH by (rewrite length_delete by eauto; lia).
    rewrite count_app. unfold count in *. simpl. lia.
Qed.

(** X25: a run logs exactly one status line for every scheduled entry, and
    none when it fails at start-up. *)
Theorem one_status_line_per_scheduled_entry a w :
  count is_status_log (trace (final_world (main E a w)))
  = (count is_status_log (trace w) + length (scheduled (main E a w)))%nat.
Proof.
  destruct (main_cases E a w) as [(Hf & Hs & _)|(lrt & xml & entries & _ & _ & _ & Hrun)].
  - rewrite Hs. destruct (main_startup_failed E a w Hf) as (r & -> & Hr). simpl.
    rewrite count_app. unfold count. destruct Hr as [->|[x ->]]; simpl; lia.
  - cbv zeta in Hrun. destruct Hrun as (-> & _ & _ & _ & _ & -> & _).
    rewrite count_app, run_pool_status_logs by reflexivity.
    unfold emit. simpl. rewrite count_app. unfold count. simpl.
    destruct (disk_write E _ (path_join (output_dir a) LAST_RUN_FILE)); simpl; lia.
Qed.

End Reporting.

(** ** The further properties on concrete runs *)

Lemma url_to_filename_is_32_hex_digits_and_suffix_witness :
  length (lit "f9b968e7dbf1f88ba0cf909900bebfd6.html") = 37%nat /\
  exists h, lit "f9b968e7dbf1f88ba0cf909900bebfd6.html" = h ++ lit ".html" /\
            length h = 32%nat /\ forallb is_lower_hex h = true.
Proof.
  apply (url_to_filename_is_32_hex_digits_and_suffix (lit "http://a/1")).
  vm_compute. reflexivity.
Defined.

Lemma artifact_path_is_inside_and_fresh_witness :
  path_join (lit "tmp") (lit "f9b968e7dbf1f88ba0cf909900bebfd6.html")
  = (if bool_decide (lit "tmp" = []) || endswith_sep (lit "tmp")
     then lit "tmp" else lit "tmp" ++ lit "/")
    ++ lit "f9b968e7dbf1f88ba0cf909900bebfd6.html" /\
  path_join (lit "tmp") (lit "f9b968e7dbf1f88ba0cf909900bebfd6.html")
  <> path_join (lit "tmp") LAST_RUN_FILE /\
  path_join (lit "tmp") (lit "f9b968e7dbf1f88ba0cf909900bebfd6.html")
  <> path_join (lit "tmp") MAPPING_FILE /\
  (forall u' f', url_to_filename u' = Some f' ->
     path_join (lit "tmp") (lit "f9b968e7dbf1f88ba0cf909900bebfd6.html")
     = path_join (lit "tmp") f' ->
     lit "f9b968e7dbf1f88ba0cf909900bebfd6.html" = f').
Proof.
  apply (artifact_path_is_inside_and_fresh (lit "tmp") (lit "http://a/1")).
  vm_compute. reflexivity.
Defined.

Lemma no_budget_means_error_without_request_witness :
  process_entry (env_up true Some) (lit "http://a/1") None (with_retries 0 base_args) ∅ w0
  = ((lit "http://a/1", error), ∅, w0).
Proof.
  apply (no_budget_means_error_without_request (env_up true Some) (lit "http://a/1") None
           (with_retries 0 base_args) ∅ w0).
  - reflexivity.
  - simpl. lia.
Defined.

Lemma unencodable_url_is_never_saved_witness :
  status_of (process_entry (env_up true Some) [0xD800] None base_args ∅ w0) <> saved /\
  map_of (process_entry (env_up true Some) [0xD800] None base_args ∅ w0) = ∅ /\
  files (world_of (process_entry (env_up true Some) [0xD800] None base_args ∅ w0))
  = files w0 /\
  count is_write (trace (world_of (process_entry (env_up true Some) [0xD800] None
                                     base_args ∅ w0)))
  = count is_write (trace w0).
Proof.
  apply (unencodable_url_is_never_saved (env_up true Some) [0xD800] None base_args ∅ w0).
  reflexivity.
Defined.

Lemma transient_failure_is_recovered_witness :
  process_entry env_flaky (lit "http://a/1") None base_args ∅ w0
  = ((lit "http://a/1", saved),
     <[lit "http://a/1" := lit "f9b968e7dbf1f88ba0cf909900bebfd6.html"]> ∅,
     World (trace w0 ++ failed_first (lit "http://a/1") (Z.to_nat (retries base_args)) 2
              ++ [EvGet (lit "http://a/1") (Some page);
                  EvWrite (path_join (output_dir base_args)
                             (lit "f9b968e7dbf1f88ba0cf909900bebfd6.html"))
                    (FBytes page) Written])
           (<[path_join (output_dir base_args)
                (lit "f9b968e7dbf1f88ba0cf909900bebfd6.html") := FBytes page]> (files w0))) /\
  count is_get (failed_first (lit "http://a/1") (Z.to_nat (retries base_args)) 2) = 2%nat.
Proof.
  apply (transient_failure_is_recovered env_flaky (lit "http://a/1") None base_args ∅ w0
           page (lit "f9b968e7dbf1f88ba0cf909900bebfd6.html") 2).
  - reflexivity.
  - simpl. lia.
  - reflexivity.
  - vm_compute. reflexivity.
  - intros j Hj. destruct j as [|[|j]]; [reflexivity|reflexivity|lia].
  - reflexivity.
  - reflexivity.
Defined.

Lemma cleaned_content_is_what_is_saved_witness :
  process_entry (env_up true (fun _ => Some cleaned_page)) (lit "http://a/1") None
    (with_readability base_args) ∅ w0
  = ((lit "http://a/1", saved),
     <[lit "http://a/1" := lit "f9b968e7dbf1f88ba0cf909900bebfd6.html"]> ∅,
     World (trace w0 ++ [EvGet (lit "http://a/1") (Some page);
                         EvWrite (path_join (output_dir (with_readability base_args))
                                    (lit "f9b968e7dbf1f88ba0cf909900bebfd6.html"))
                           (FBytes cleaned_page) Written])
           (<[path_join (output_dir (with_readability base_args))
                (lit "f9b968e7dbf1f88ba0cf909900bebfd6.html") := FBytes cleaned_page]>
              (files w0))).
Proof.
  apply (cleaned_content_is_what_is_saved (env_up true (fun _ => Some cleaned_page))
           (lit "http://a/1") None (with_readability base_args) ∅ w0 page cleaned_page
           (lit "f9b968e7dbf1f88ba0cf909900bebfd6.html")).
  - reflexivity.
  - simpl. lia.
  - reflexivity.
  - reflexivity.
  - reflexivity.
  - reflexivity.
  - vm_compute. reflexivity.
  - reflexivity.
Defined.

Lemma readability_off_ignores_the_transformer_witness :
  process_entry (with_transformer false (fun _ => None) (env_up true Some))
    (lit "http://a/1") None base_args ∅ w0
  = process_entry (env_up true Some) (lit "http://a/1") None base_args ∅ w0.
Proof.
  apply (readability_off_ignores_the_transformer (env_up true Some) false (fun _ => None)
           (lit "http://a/1") None base_args ∅ w0).
  reflexivity.
Defined.

Lemma startup_failure_writes_nothing_witness :
  files (final_world (main env_down base_args w0)) = files w0 /\
  scheduled (main env_down base_args w0) = [] /\
  outcomes (main env_down base_args w0) = [] /\
  final_map (main env_down base_args w0) = ∅ /\
  count is_write (trace (final_world (main env_down base_args w0)))
  = count is_write (trace w0) /\
  count is_time (trace (final_world (main env_down base_args w0)))
  = count is_time (trace w0) /\
  (count is_get (trace (final_world (main env_down base_args w0)))
   <= count is_get (trace w0) + 1)%nat.
Proof.
  apply (startup_failure_writes_nothing env_down base_args w0).
  vm_compute. reflexivity.
Defined.

Lemma unreadable_marker_stops_the_run_witness :
  main env_two base_args w_damaged = Run StartupFailed [] [] ∅ w_damaged.
Proof.
  apply (unreadable_marker_stops_the_run env_two base_args w_damaged (FBytes [123])).
  - vm_compute. reflexivity.
  - intros t. discriminate.
Defined.

Lemma first_or_forced_run_skips_nothing_witness :
  Forall (fun o => o.2 <> skipped) (outcomes (main env_two base_args w0)).
Proof.
  apply (first_or_forced_run_skips_nothing env_two base_args w0).
  right. exists None. split; [vm_compute; reflexivity|reflexivity].
Defined.

Lemma completed_run_marker_round_trip_witness :
  exists before t,
    trace (final_world (main env_two base_args w0))
    = before ++ [EvTime t;
                 EvWrite (path_join (output_dir base_args) LAST_RUN_FILE)
                   (FJson (Some t)) Written;
                 EvWrite (path_join (output_dir base_args) MAPPING_FILE)
                   (FCsv (final_map (main env_two base_args w0))) Written] /\
    t = time_time env_two before /\
    load_last_run (output_dir base_args) (final_world (main env_two base_args w0))
    = Some (Some t).
Proof.
  apply (completed_run_marker_round_trip env_two base_args w0).
  vm_compute. reflexivity.
Defined.

Lemma run_with_nothing_new_skips_everything_witness :
  Forall (fun o => o.2 = skipped) (outcomes (main env_old base_args w_2021)) /\
  final_map (main env_old base_args w_2021) = ∅ /\
  count is_get (trace (final_world (main env_old base_args w_2021)))
  = Datatypes.S (count is_get (trace w_2021)) /\
  (count is_write (trace (final_world (main env_old base_args w_2021)))
   <= count is_write (trace w_2021) + 2)%nat /\
  (run_end_of (main env_old base_args w_2021) = Completed ->
   files (final_world (main env_old base_args w_2021))
     !! path_join (output_dir base_args) MAPPING_FILE
   = Some (FCsv ∅)).
Proof.
  apply (run_with_nothing_new_skips_everything env_old base_args w_2021
           (inject_Z 1609459200)).
  - reflexivity.
  - vm_compute. reflexivity.
  - intros Hz. vm_compute in Hz. discriminate.
  - reflexivity.
  - vm_compute. discriminate.
  - intros u lm Hin.
    replace (scheduled (main env_old base_args w_2021)) with catalog_old in Hin
      by (vm_compute; reflexivity).
    exists (lit "2020-01-01T00:00:00+0000"), (inject_Z 1577836800).
    unfold catalog_old in Hin.
    apply elem_of_cons in Hin as [Hin|Hin];
      [|apply elem_of_cons in Hin as [Hin|Hin]; [|now apply elem_of_nil in Hin]];
      injection Hin as -> ->; (split; [reflexivity|]);
      (split; [reflexivity|]); vm_compute; discriminate.
Defined.

Lemma limit_always_keeps_a_prefix_witness :
  (exists dropped,
     catalog5 = scheduled (main env_site (with_limit (Some (-2)) base_args) w0) ++ dropped) /\
  (forall k, limit (with_limit (Some (-2)) base_args) = Some k -> k < 0 ->
     scheduled (main env_site (with_limit (Some (-2)) base_args) w0)
     = firstn (Z.to_nat (Z.of_nat (length catalog5) + k)) catalog5 /\
     Z.of_nat (length (scheduled (main env_site (with_limit (Some (-2)) base_args) w0)))
     = Z.max 0 (Z.of_nat (length catalog5) + k)).
Proof.
  apply (limit_always_keeps_a_prefix env_site (with_limit (Some (-2)) base_args) w0
           page catalog5).
  - vm_compute. discriminate.
  - reflexivity.
  - reflexivity.
Defined.

Lemma mapped_urls_have_their_artifact_witness :
  url_to_filename (lit "http://a/1") = Some (lit "f9b968e7dbf1f88ba0cf909900bebfd6.html") /\
  exists c, files (final_world (main env_two base_args w0))
              !! path_join (output_dir base_args)
                   (lit "f9b968e7dbf1f88ba0cf909900bebfd6.html")
            = Some (FBytes c).
Proof.
  apply (mapped_urls_have_their_artifact env_two base_args w0).
  - vm_compute. reflexivity.
  - replace (scheduled (main env_two base_args w0)) with catalog2
      by (vm_compute; reflexivity).
    apply (bool_decide_unpack _). vm_compute. exact I.
  - replace (scheduled (main env_two base_args w0)) with catalog2
      by (vm_compute; reflexivity).
    intros u u' f Hu Hu' Hf Hf'. simpl in Hu, Hu'.
    apply elem_of_cons in Hu as [->|Hu];
      [|apply elem_of_cons in Hu as [->|Hu]; [|now apply elem_of_nil in Hu]];
      (apply elem_of_cons in Hu' as [->|Hu'];
       [|apply elem_of_cons in Hu' as [->|Hu']; [|now apply elem_of_nil in Hu']]);
      try reflexivity; vm_compute in Hf, Hf'; congruence.
  - vm_compute. reflexivity.
Defined.

Lemma parse_sitemap_entries_are_trimmed_witness :
  (length [(lit "http://a/1", Some (lit "2020-01-01T00:00:00+0000"));
           (lit "http://a/2", None)]
   <= length (findall_url sitemap_tree))%nat /\
  forall u lm,
    (u, lm) ∈ [(lit "http://a/1", Some (lit "2020-01-01T00:00:00+0000"));
               (lit "http://a/2", None)] ->
    trimmed u /\ (forall x, lm = Some x -> trimmed x) /\
    exists e, e ∈ findall_url sitemap_tree /\ has_loc_text e = true /\
              (lm = None <-> find_child e "lastmod" = None).
Proof.
  apply (parse_sitemap_entries_are_trimmed (fun _ => Some sitemap_tree) []).
  - reflexivity.
  - vm_compute. reflexivity.
Defined.

Lemma empty_lastmod_stops_the_run_witness :
  run_end_of (main (env_parsed sitemap_tree_empty_lastmod) base_args w0) = StartupFailed /\
  outcomes (main (env_parsed sitemap_tree_empty_lastmod) base_args w0) = [] /\
  files (final_world (main (env_parsed sitemap_tree_empty_lastmod) base_args w0))
  = files w0.
Proof.
  apply (empty_lastmod_stops_the_run (env_parsed sitemap_tree_empty_lastmod)
           (fun _ => Some sitemap_tree_empty_lastmod) base_args w0 page
           sitemap_tree_empty_lastmod
           (Element (ns_tag "url") None
              [ Element (ns_tag "loc") (Some (lit "http://a/1")) [];
                Element (ns_tag "lastmod") None [] ])
           (Element (ns_tag "lastmod") None [])).
  - intros x. reflexivity.
  - reflexivity.
  - reflexivity.
  - vm_compute. left.
  - vm_compute. reflexivity.
  - vm_compute. reflexivity.
  - reflexivity.
Defined.

Lemma second_run_skips_what_the_first_covered_witness :
  exists t,
    load_last_run (output_dir base_args) (final_world (main env_old base_args w0))
    = Some (Some t) /\
    (~ (t == 0)%Q ->
     (forall u lm,
        (u, lm) ∈ scheduled (main env_old base_args (final_world (main env_old base_args w0))) ->
        exists s ts, lm = Some s /\ mktime_strptime env_old s = Some ts /\ (ts <= t)%Q) ->
     Forall (fun o => o.2 = skipped)
       (outcomes (main env_old base_args (final_world (main env_old base_args w0)))) /\
     final_map (main env_old base_args (final_world (main env_old base_args w0))) = ∅ /\
     count is_get
       (trace (final_world (main env_old base_args (final_world (main env_old base_args w0)))))
     = Datatypes.S (count is_get (trace (final_world (main env_old base_args w0))))).
Proof.
  apply (second_run_skips_what_the_first_covered env_old base_args w0).
  - reflexivity.
  - reflexivity.
  - vm_compute. reflexivity.
  - vm_compute. discriminate.
Defined.

(** Two runs in a row over [catalog_old]: the first saves both pages, the
    second skips both and leaves a mapping file without rows. *)
Example two_runs_in_a_row :
  outcomes (main env_old base_args w0)
  = [(lit "http://a/1", saved); (lit "http://a/2", saved)] /\
  outcomes (main env_old base_args (final_world (main env_old base_args w0)))
  = [(lit "http://a/1", skipped); (lit "http://a/2", skipped)] /\
  files (final_world (main env_old base_args (final_world (main env_old base_args w0))))
    !! path_join (lit "tmp") MAPPING_FILE
  = Some (FCsv ∅).
Proof. repeat split; vm_compute; reflexivity. Qed.

(** The catalog [parse_sitemap] reads off [sitemap_tree]. *)
Example parse_sitemap_tree :
  parse_sitemap (fun _ => Some sitemap_tree) []
  = Some [(lit "http://a/1", Some (lit "2020-01-01T00:00:00+0000"));
          (lit "http://a/2", None)].
Proof. vm_compute. reflexivity. Qed.

Lemma no_worker_means_nothing_is_scheduled_witness :
  run_end_of (main env_two (with_workers 0 base_args) w0) = StartupFailed /\
  scheduled (main env_two (with_workers 0 base_args) w0) = [] /\
  outcomes (main env_two (with_workers 0 base_args) w0) = [] /\
  final_map (main env_two (with_workers 0 base_args) w0) = ∅ /\
  files (final_world (main env_two (with_workers 0 base_args) w0)) = files w0 /\
  count is_write (trace (final_world (main env_two (with_workers 0 base_args) w0)))
  = count is_write (trace w0) /\
  count is_time (trace (final_world (main env_two (with_workers 0 base_args) w0)))
  = count is_time (trace w0).
Proof.
  apply (no_worker_means_nothing_is_scheduled env_two (with_workers 0 base_args) w0).
  simpl. lia.
Defined.

(** Without a worker the sitemap is fetched and parsed, and that is all. *)
Example run_without_workers :
  trace (final_world (main env_two (with_workers 0 base_args) w0))
  = [EvGet (lit "http://a/sitemap.xml") (Some page)] /\
  main env_two (with_workers (-1) base_args) w0
  = main env_two (with_workers 0 base_args) w0 /\
  run_end_of (main env_two (with_workers 1 base_args) w0) = Completed.
Proof. repeat split; vm_compute; reflexivity. Qed.
